(** * lighthouse: the drawing core (src/display.c)

    A shallow embedding of display.c: the viewport window of the result
    list, the image scaler, and the cairo call sequences of the query row,
    the result rows and the description panel.

    Part I holds the definitions, in the order of the source file;
    Part II the lemmas and theorems. *)

From Stdlib Require Import ZArith List String Ascii Bool Lia.
Import ListNotations.
Local Open Scope Z_scope.

(** * Part I: definitions *)

(** ** Machine integers

    [uint32_t] and [int32_t] values are carried in [Z]; every C operation
    on them is followed by the wrap-around below. *)

Module Int32.

Definition modulus : Z := 2 ^ 32.
Definition half_modulus : Z := 2 ^ 31.

(** Value of a [uint32_t] expression. *)
Definition u32 (z : Z) : Z := z mod modulus.

(** Conversion to [int32_t] (two's complement). *)
Definition i32 (z : Z) : Z :=
  let r := z mod modulus in
  if r <? half_modulus then r else r - modulus.

Definition in_u32 (z : Z) : Prop := 0 <= z < modulus.

End Int32.

Import Int32.

(** The macro [min(a,b) ((a) < (b) ? (a) : (b))], on integers. *)
Definition c_min (a b : Z) : Z := if a <? b then a else b.

(** ** Single-precision arithmetic

    [draw_image] computes its scale factor in C [float], taken here as
    IEEE binary32 with every operation rounded to [float] (what x86-64
    compilers emit).  Only values that are not negative occur there.
    Every finite binary32 number is a whole multiple of [2^-149]; [Fin z]
    stands for [z * 2^-149].  Results are rounded to nearest, ties to
    even, on 24 significant bits, and a result of [2^128] or more becomes
    [Inf]; small results land on the grid of multiples of [2^-149], which
    is the subnormal range. *)

Module F32.

Inductive t : Type :=
| Nan
| Inf
| Fin (z : Z).

Definition prec : Z := 24.

(** The number 1.0, in units of [2^-149]. *)
Definition one : Z := 2 ^ 149.

(** First value too large for binary32, in the same units. *)
Definition huge : Z := 2 ^ 128 * one.

(** [floor (log2 (n / d))] for [0 < d <= n]. *)
Definition ilog2_ratio (n d : Z) : Z :=
  let k := Z.log2 n - Z.log2 d in
  if d * 2 ^ k <=? n then k else k - 1.

(** Binary exponent of the last place of [n / d]. *)
Definition ulp_exp (n d : Z) : Z :=
  if n <? d * 2 ^ prec then 0 else ilog2_ratio n d - (prec - 1).

(** Nearest integer to [n / den], ties to even. *)
Definition nearest_even (n den : Z) : Z :=
  let q := n / den in
  let r := n mod den in
  if 2 * r <? den then q
  else if den <? 2 * r then q + 1
  else if Z.even q then q else q + 1.

(** The binary32 number nearest to [n / d] units, [0 <= n], [0 < d]. *)
Definition round_ratio (n d : Z) : t :=
  let e := ulp_exp n d in
  let z := nearest_even n (d * 2 ^ e) * 2 ^ e in
  if z <? huge then Fin z else Inf.

(** [(float) n] for an unsigned integer. *)
Definition of_u32 (n : Z) : t := round_ratio (n * one) 1.

Definition div (a b : t) : t :=
  match a, b with
  | Nan, _ | _, Nan => Nan
  | Inf, Inf => Nan
  | Inf, Fin _ => Inf
  | Fin _, Inf => Fin 0
  | Fin n, Fin d =>
      if d =? 0 then (if n =? 0 then Nan else Inf)
      else round_ratio (n * one) d
  end.

Definition mul (a b : t) : t :=
  match a, b with
  | Nan, _ | _, Nan => Nan
  | Inf, Inf => Inf
  | Inf, Fin n | Fin n, Inf => if n =? 0 then Nan else Inf
  | Fin n, Fin m => round_ratio (n * m) one
  end.

(** [a < b]; false as soon as one side is a NaN. *)
Definition lt (a b : t) : bool :=
  match a, b with
  | Nan, _ | _, Nan => false
  | Inf, _ => false
  | Fin _, Inf => true
  | Fin n, Fin m => n <? m
  end.

(** The macro [min], on floats. *)
Definition min (a b : t) : t := if lt a b then a else b.

(** Conversion to [uint32_t]: truncation; [None] where C leaves the
    conversion undefined (NaN, infinity, value out of range). *)
Definition to_u32 (a : t) : option Z :=
  match a with
  | Fin z => let n := z / one in if n <? modulus then Some n else None
  | _ => None
  end.

End F32.

(** ** Data of display.h and globals.h

    display.h and globals.h are not among the sources.  The records below
    list the fields display.c reads; integer fields are taken as
    [uint32_t], the type of the locals they are mixed with ([max_results],
    [display_results], [desc_height], [cursor_y]). *)

(** Modelled from the spec: [color_t] (declared in a missing header), an
    immutable RGB triple, only ever handed to [cairo_set_source_rgb]. *)
Module Color.
Record t : Type := mk { r : Z; g : Z; b : Z }.
End Color.

(** [offset_t], lines 17-21. *)
Module Offset.
Record t : Type := mk { x : Z; y : Z; image_y : Z }.
End Offset.

(** Modelled from the spec: [image_format_t] (declared in a missing
    header), the width and height of a drawn image. *)
Module Format.
Record t : Type := mk { width : Z; height : Z }.
End Format.

(** Modelled from the spec: the fields of [settings] (declared in a
    missing header) that display.c reads; the theme and the geometry of
    the rows and of the description panel. *)
Module Settings.
Record t : Type := mk {
  horiz_padding : Z;
  height : Z;
  width : Z;
  max_height : Z;
  desc_size : Z;
  font_name : string;
  font_size : Z;
  cursor_is_underline : bool;
  cursor_padding : Z;
  auto_center : bool;
  query_fg : Color.t;
  query_bg : Color.t;
  result_fg : Color.t;
  result_bg : Color.t;
  highlight_fg : Color.t;
  highlight_bg : Color.t
}.
End Settings.

(** Modelled from the spec: [result_t] (declared in a missing header),
    a display text and an optional description, both [char *]. *)
Module Result.
Record t : Type := mk { text : option string; desc : option string }.
End Result.

(** Modelled from the spec: the fields of [global] (declared in a
    missing header) that display.c reads.  [result_count],
    [result_highlight] and [result_offset] are the viewport state, kept
    across redraws. *)
Module Global.
Record t : Type := mk {
  real_font_size : Z;
  result_count : Z;
  result_highlight : Z;
  result_offset : Z;
  win_x_pos : Z;
  win_x_pos_with_desc : Z;
  win_y_pos : Z;
  results : list Result.t
}.

Definition set_result_highlight (gl : t) (v : Z) : t :=
  mk (real_font_size gl) (result_count gl) v (result_offset gl)
     (win_x_pos gl) (win_x_pos_with_desc gl) (win_y_pos gl) (results gl).

Definition set_result_offset (gl : t) (v : Z) : t :=
  mk (real_font_size gl) (result_count gl) (result_highlight gl) v
     (win_x_pos gl) (win_x_pos_with_desc gl) (win_y_pos gl) (results gl).

(** The three fields of the viewport hold [uint32_t] values. *)
Definition wf (gl : t) : Prop :=
  in_u32 (result_count gl) /\ in_u32 (result_highlight gl) /\
  in_u32 (result_offset gl).
End Global.

(** Modelled from the spec: [draw_type_t] (declared in a missing
    header), the kind of a token of [parse_result_line].  The [switch]
    statements have a [default] label; [OTHER] stands for any further
    enumerator. *)
Inductive draw_type_t : Type :=
| DRAW_TEXT
| DRAW_IMAGE
| NEW_LINE
| BOLD
| OTHER (tag : Z).

(** Modelled from the spec: [draw_t] (declared in a missing header), a
    token.  [data] points into the parsed buffer; the layout loops put a
    NUL at the parser's cursor while they draw, so the string read through
    [data] ends there.  [data d = Some s] carries that string, [None] is
    [NULL]. *)
Module Draw.
Record t : Type := mk { type : draw_type_t; data : option string }.
End Draw.

(** ** The drawing surface

    cairo and xcb are used through their calls only.  A context keeps the
    font selected last (text is measured with it) and the calls made so
    far, oldest first. *)

Inductive cairo_font_weight_t : Type :=
| CAIRO_FONT_WEIGHT_NORMAL
| CAIRO_FONT_WEIGHT_BOLD.

Module Font.
Record t : Type := mk {
  face : string;
  weight : cairo_font_weight_t;
  size : Z
}.
End Font.

(** [cairo_text_extents_t], the two fields display.c reads.  cairo reports
    doubles; the model takes them at whole numbers of pixels (what cairo
    yields with metrics hinting on), where the double arithmetic of
    display.c is exact. *)
Module Extents.
Record t : Type := mk { width : Z; x_advance : Z }.
End Extents.

Inductive draw_op : Type :=
| MutexLock
| MutexUnlock
| SetSourceRgb (c : Color.t)
| Rectangle (x y w h : Z)
| StrokePreserve
| Fill
| SelectFontFace (name : string) (weight : cairo_font_weight_t)
| SetFontSize (size : Z)
| MoveTo (x y : Z)
| ShowText (text : option string)
| ScaleSurface (file : string) (w h new_w new_h : Z)
| SetSourceSurface (file : string) (x y : Z)
| MaskSurface (file : string) (x y : Z)
| Stderr (msg : string) (arg : option string)
| ConfigureWindowXY (x y : Z)
| ConfigureWindowSize (w h : Z)
| SurfaceSetSize (w h : Z)
| SurfaceFlush
| XcbFlush.

Module Cairo.
Record t : Type := mk { font : Font.t; ops : list draw_op }.
End Cairo.

(** A drawing routine runs on a context and ends normally, or in a fault
    of the C program (a read or write through [NULL], an index outside
    [results], an undefined conversion), or out of fuel for a loop whose
    end depends on the parser. *)
Inductive outcome (A : Type) : Type :=
| Done (a : A) (cr : Cairo.t)
| Fault (cr : Cairo.t)
| Timeout (cr : Cairo.t).

Arguments Done {A} a cr.
Arguments Fault {A} cr.
Arguments Timeout {A} cr.

Definition draw (A : Type) : Type := Cairo.t -> outcome A.

Definition ret {A : Type} (a : A) : draw A := fun cr => Done a cr.

Definition bind {A B : Type} (m : draw A) (k : A -> draw B) : draw B :=
  fun cr =>
    match m cr with
    | Done a cr' => k a cr'
    | Fault cr' => Fault cr'
    | Timeout cr' => Timeout cr'
    end.

Notation "v <- m ;; k" := (bind m (fun v => k))
  (at level 61, m at next level, right associativity).
Notation "m ;;; k" := (bind m (fun _ => k))
  (at level 61, right associativity).

Definition fault {A : Type} : draw A := fun cr => Fault cr.
Definition timeout {A : Type} : draw A := fun cr => Timeout cr.

(** Record a call. *)
Definition emit (op : draw_op) : draw unit :=
  fun cr => Done tt (Cairo.mk (Cairo.font cr) (Cairo.ops cr ++ [op])).

Definition get_font : draw Font.t := fun cr => Done (Cairo.font cr) cr.

Definition cairo_select_font_face (name : string) (w : cairo_font_weight_t)
  : draw unit :=
  fun cr =>
    Done tt (Cairo.mk (Font.mk name w (Font.size (Cairo.font cr)))
                      (Cairo.ops cr ++ [SelectFontFace name w])).

Definition cairo_set_font_size (sz : Z) : draw unit :=
  fun cr =>
    Done tt (Cairo.mk (Font.mk (Font.face (Cairo.font cr))
                               (Font.weight (Cairo.font cr)) sz)
                      (Cairo.ops cr ++ [SetFontSize sz])).

(** ** The image scaler (draw_image, lines 183-196)

    [None] when a conversion of the scaled size to [uint32_t] is
    undefined. *)
Definition scale_format (format : Format.t) (win_size_x win_size_y : Z)
  : option Format.t :=
  if (win_size_x <? Format.width format) || (win_size_y <? Format.height format)
  then
    let prop :=
      F32.min (F32.div (F32.of_u32 win_size_x) (F32.of_u32 (Format.width format)))
              (F32.div (F32.of_u32 win_size_y) (F32.of_u32 (Format.height format))) in
    match F32.to_u32 (F32.mul prop (F32.of_u32 (Format.width format))),
          F32.to_u32 (F32.mul prop (F32.of_u32 (Format.height format))) with
    | Some new_width, Some new_height => Some (Format.mk new_width new_height)
    | _, _ => None
    end
  else Some format.

(** The scaler in the words of the spec: the natural size when it fits,
    else both sides times [s = min (W/w, H/h)], truncated, in exact
    arithmetic. *)
Definition spec_scale (w h W H : Z) : Z * Z :=
  if (W <? w) || (H <? h)
  then if W * h <=? H * w
       then (w * W / w, h * W / w)
       else (w * H / h, h * H / h)
  else (w, h).

(** ** The cursor of the query row (draw_typed_line, lines 99-113)

    From the advance of the text before the cursor, the extents of the
    whole text and the origin of the row: the origin of the text
    ([offset.x]) and [cursor_x].  [offset.x] is unsigned: a negative
    origin is stored modulo [2^32], as the usual compilers do. *)
Definition place_cursor (width offset_x cursor_advance : Z)
  (extents : Extents.t) : Z * Z :=
  let cursor_x := i32 cursor_advance in
  let offset_x :=
    if width <? Extents.width extents
    then u32 (width - Extents.x_advance extents)
    else offset_x in
  let cursor_x := i32 (u32 cursor_x + offset_x) in
  if cursor_x <? 0
  then (u32 (offset_x - u32 (i32 (cursor_x - 3))), 0)
  else (offset_x, cursor_x).

(** ** The viewport window (draw_result_text, lines 324-335) *)

(** Lines 324-326: the clamp of the highlight. *)
Definition clamp_highlight (gl : Global.t) : Global.t :=
  if u32 (Global.result_count gl - 1) <? Global.result_highlight gl
  then Global.set_result_highlight gl (u32 (Global.result_count gl - 1))
  else gl.

(** Line 328. *)
Definition max_results_of (max_height height : Z) : Z :=
  u32 (max_height / height - 1).

(** Lines 329-335, from the clamped state: the new state and
    [display_results]. *)
Definition scroll_window (gl : Global.t) (max_results : Z) : Global.t * Z :=
  let display_results := c_min (Global.result_count gl) max_results in
  if u32 (Global.result_offset gl + display_results)
       <? u32 (Global.result_highlight gl + 1)
  then
    let gl' := Global.set_result_offset gl
                 (u32 (Global.result_highlight gl - u32 (display_results - 1))) in
    (gl', u32 (Global.result_count gl' - Global.result_offset gl'))
  else if Global.result_highlight gl <? Global.result_offset gl
  then (Global.set_result_offset gl (Global.result_highlight gl), display_results)
  else (gl, display_results).

Definition viewport_window (gl : Global.t) (max_results : Z) : Global.t * Z :=
  scroll_window (clamp_highlight gl) max_results.

(** The invariant of the spec on the state after the window ran. *)
Definition window_invariant (gl : Global.t) (display_results max_results : Z)
  : Prop :=
  Global.result_offset gl <= Global.result_highlight gl
    <= Global.result_offset gl + display_results - 1
  /\ display_results <= max_results.

(** ** The drawing routines of display.c *)

Section Display.

(** The configuration, constant while a frame is drawn. *)
Variable settings : Settings.t.

(** [cairo_text_extents] of a string in the font of the context. *)
Variable text_extents : Font.t -> string -> Extents.t.

(** [parse_result_line (cr, &c, max_width)]: the token at the cursor and
    the cursor after it ([None]: the parser left [c] at [NULL]).  The
    parser lives in another file of the program, not among the sources;
    display.c only calls it, so it is a parameter here. *)
Variable parse_result_line : Font.t -> string -> Z -> Draw.t * option string.

(** [wordexp]: [None] on error, else the words of the expansion. *)
Variable wordexp : string -> option (list string).

(** [access (file, F_OK) != -1]. *)
Variable access : string -> bool.

(** Width and height of the surface that
    [cairo_image_surface_create_from_png] returns for a file. *)
Variable png_size : string -> Z * Z.

(** [cairo_text_extents] accepts [NULL] and then reports zero extents. *)
Definition cairo_text_extents (text : option string) : draw Extents.t :=
  f <- get_font ;;
  ret (match text with
       | Some s => text_extents f s
       | None => Extents.mk 0 0
       end).

(** Lines 28-40. *)
Definition calculate_line_offset (gl : Global.t) (line : Z) : Offset.t :=
  let result_y := u32 (Settings.height settings * line) in
  Offset.mk (Settings.horiz_padding settings)
            (u32 (result_y + Global.real_font_size gl))
            result_y.

(** Lines 79-132.  [text] is the buffer up to its terminator: line 95
    reads [text[cursor]] and line 96 writes it, so a cursor beyond the
    terminator is a fault.  With [text[cursor]] set to NUL the first
    measurement reads the first [cursor] characters of [text]. *)
Definition draw_typed_line (gl : Global.t) (text : string) (line cursor : Z)
  (foreground background : Color.t) : draw unit :=
  emit MutexLock ;;;
  emit (SetSourceRgb background) ;;;
  emit (Rectangle 0 (u32 (line * Settings.height settings))
                  (Settings.width settings)
                  (u32 ((line + 1) * Settings.height settings))) ;;;
  emit StrokePreserve ;;;
  emit Fill ;;;
  emit (SetSourceRgb foreground) ;;;
  cairo_select_font_face (Settings.font_name settings) CAIRO_FONT_WEIGHT_NORMAL ;;;
  let offset := calculate_line_offset gl line in
  if (cursor <? 0) || (Z.of_nat (String.length text) <? cursor) then fault
  else
    before <- cairo_text_extents (Some (substring 0 (Z.to_nat cursor) text)) ;;
    extents <- cairo_text_extents (Some text) ;;
    let '(offset_x, cursor_x) :=
      place_cursor (Settings.width settings) (Offset.x offset)
                   (Extents.x_advance before) extents in
    emit (MoveTo offset_x (Offset.y offset)) ;;;
    cairo_set_font_size (Settings.font_size settings) ;;;
    emit (ShowText (Some text)) ;;;
    (if Settings.cursor_is_underline settings
     then emit (ShowText (Some "_"%string))
     else
       let cursor_y := u32 (Offset.y offset - Settings.font_size settings
                            - Settings.cursor_padding settings) in
       emit (SetSourceRgb foreground) ;;;
       emit (Rectangle (cursor_x + 2) cursor_y 0
                       (u32 (Settings.font_size settings
                             + u32 (Settings.cursor_padding settings * 2)))) ;;;
       emit StrokePreserve ;;;
       emit Fill) ;;;
    emit MutexUnlock.

(** Lines 141-150.  The text is measured before the face and the size are
    set. *)
Definition draw_text (text : option string) (offset : Offset.t)
  (foreground : Color.t) (weight : cairo_font_weight_t) : draw Z :=
  extents <- cairo_text_extents text ;;
  emit (MoveTo (Offset.x offset) (Offset.y offset)) ;;;
  emit (SetSourceRgb foreground) ;;;
  cairo_select_font_face (Settings.font_name settings) weight ;;;
  cairo_set_font_size (Settings.font_size settings) ;;;
  emit (ShowText text) ;;;
  ret (u32 (Extents.x_advance extents)).

(** Lines 165-169: the file name after [wordexp]; [None] is the [NULL]
    first word of an empty expansion. *)
Definition expand_file (file : string) : option string * list draw_op :=
  match wordexp file with
  | None => (Some file, [Stderr "Error expanding file" (Some file)])
  | Some words => (hd_error words, [])
  end.

Fixpoint emit_all (l : list draw_op) : draw unit :=
  match l with
  | [] => ret tt
  | op :: l' => emit op ;;; emit_all l'
  end.

(** Lines 161-203.  [wordexp] reads its argument, so a [NULL] file is a
    fault; [access (NULL)] fails like a missing file. *)
Definition draw_image (file : option string) (offset : Offset.t)
  (win_size_x win_size_y : Z) : draw Format.t :=
  match file with
  | None => fault
  | Some name =>
      let '(expanded, diag) := expand_file name in
      emit_all diag ;;;
      match expanded with
      | Some path =>
          if access path
          then
            let format := Format.mk (u32 (fst (png_size path)))
                                    (u32 (snd (png_size path))) in
            match scale_format format win_size_x win_size_y with
            | None => fault
            | Some new_format =>
                (if (win_size_x <? Format.width format)
                    || (win_size_y <? Format.height format)
                 then emit (ScaleSurface path (Format.width format)
                              (Format.height format) (Format.width new_format)
                              (Format.height new_format))
                 else ret tt) ;;;
                emit (SetSourceSurface path (Offset.x offset)
                                       (Offset.image_y offset)) ;;;
                emit (MaskSurface path (Offset.x offset)
                                  (Offset.image_y offset)) ;;;
                ret new_format
            end
          else
            emit (Stderr "Cannot open image file" expanded) ;;;
            ret (Format.mk 0 0)
      | None =>
          emit (Stderr "Cannot open image file" expanded) ;;;
          ret (Format.mk 0 0)
      end
  end.

(** The [switch] of draw_line, lines 235-250. *)
Definition line_dispatch (d : Draw.t) (offset : Offset.t)
  (foreground : Color.t) : draw Offset.t :=
  match Draw.type d with
  | DRAW_IMAGE =>
      format <- draw_image (Draw.data d) offset
                  (u32 (Settings.width settings - Offset.x offset))
                  (Settings.height settings) ;;
      ret (Offset.mk (u32 (Offset.x offset + Format.width format))
                     (Offset.y offset) (Offset.image_y offset))
  | BOLD =>
      adv <- draw_text (Draw.data d) offset foreground CAIRO_FONT_WEIGHT_BOLD ;;
      ret (Offset.mk (u32 (Offset.x offset + adv))
                     (Offset.y offset) (Offset.image_y offset))
  | NEW_LINE => ret offset
  | DRAW_TEXT | OTHER _ =>
      adv <- draw_text (Draw.data d) offset foreground CAIRO_FONT_WEIGHT_NORMAL ;;
      ret (Offset.mk (u32 (Offset.x offset + adv))
                     (Offset.y offset) (Offset.image_y offset))
  end.

(** The [while] loop of draw_line, lines 227-252.  [c] is the cursor into
    the row text; the loop ends at [NULL], at the end of the text, or at a
    token without data.  Reading [*c] to save it faults when the parser
    left [c] at [NULL]. *)
Fixpoint draw_line_loop (fuel : nat) (c : option string) (offset : Offset.t)
  (foreground : Color.t) : draw Offset.t :=
  match c with
  | None => ret offset
  | Some EmptyString => ret offset
  | Some s =>
      match fuel with
      | O => timeout
      | S fuel' =>
          f <- get_font ;;
          let '(d, c') :=
            parse_result_line f s
              (u32 (Settings.width settings - Offset.x offset)) in
          match Draw.data d with
          | None => ret offset
          | Some _ =>
              match c' with
              | None => fault
              | Some _ =>
                  offset' <- line_dispatch d offset foreground ;;
                  draw_line_loop fuel' c' offset' foreground
              end
          end
      end
  end.

(** Lines 214-255. *)
Definition draw_line (fuel : nat) (gl : Global.t) (text : option string)
  (line : Z) (foreground background : Color.t) : draw unit :=
  emit MutexLock ;;;
  emit (SetSourceRgb background) ;;;
  emit (Rectangle 0 (u32 (u32 (line * Settings.height settings) + 2))
                  (Settings.width settings)
                  (u32 ((line + 1) * Settings.height settings))) ;;;
  emit StrokePreserve ;;;
  emit Fill ;;;
  draw_line_loop fuel text (calculate_line_offset gl line) foreground ;;;
  emit MutexUnlock.

(** [desc_height], line 268. *)
Definition desc_height_of (gl : Global.t) : Z :=
  u32 (Settings.height settings * u32 (Global.result_count gl + 1)).

(** The [switch] of draw_desc, lines 281-304. *)
Definition desc_dispatch (gl : Global.t) (d : Draw.t) (offset : Offset.t)
  (foreground : Color.t) : draw Offset.t :=
  match Draw.type d with
  | DRAW_IMAGE =>
      format <- draw_image (Draw.data d) offset
                  (Settings.desc_size settings)
                  (u32 (desc_height_of gl - Offset.image_y offset)) ;;
      let image_y := u32 (Offset.image_y offset + Format.height format) in
      ret (Offset.mk (u32 (Offset.x offset + Format.width format))
                     image_y image_y)
  | NEW_LINE =>
      ret (Offset.mk (Settings.width settings)
                     (u32 (Offset.y offset + Settings.font_size settings))
                     (u32 (Offset.image_y offset + Settings.font_size settings)))
  | BOLD =>
      adv <- draw_text (Draw.data d) offset foreground CAIRO_FONT_WEIGHT_BOLD ;;
      ret (Offset.mk (u32 (Offset.x offset + adv))
                     (Offset.y offset) (Offset.image_y offset))
  | DRAW_TEXT | OTHER _ =>
      adv <- draw_text (Draw.data d) offset foreground CAIRO_FONT_WEIGHT_NORMAL ;;
      ret (Offset.mk (u32 (Offset.x offset + adv))
                     (Offset.y offset) (Offset.image_y offset))
  end.

(** The test of line 306. *)
Definition desc_overflows (offset : Offset.t) : bool :=
  u32 (Settings.width settings + Settings.desc_size settings)
    <? u32 (Offset.x offset + Settings.font_size settings).

(** Lines 306-311. *)
Definition desc_wrap (gl : Global.t) (offset : Offset.t) : Offset.t :=
  if desc_overflows offset
  then Offset.mk (Settings.width settings)
                 (u32 (Offset.y offset + Global.real_font_size gl))
                 (u32 (Offset.image_y offset + Global.real_font_size gl))
  else offset.

(** The [while] loop of draw_desc, lines 277-312. *)
Fixpoint draw_desc_loop (fuel : nat) (gl : Global.t) (c : option string)
  (offset : Offset.t) (foreground : Color.t) : draw Offset.t :=
  match c with
  | None => ret offset
  | Some EmptyString => ret offset
  | Some s =>
      match fuel with
      | O => timeout
      | S fuel' =>
          f <- get_font ;;
          let '(d, c') :=
            parse_result_line f s
              (u32 (u32 (Settings.desc_size settings + Settings.width settings)
                    - Offset.x offset)) in
          match c' with
          | None => fault
          | Some _ =>
              offset' <- desc_dispatch gl d offset foreground ;;
              draw_desc_loop fuel' gl c' (desc_wrap gl offset') foreground
          end
      end
  end.

(** Lines 265-315. *)
Definition draw_desc (fuel : nat) (gl : Global.t) (text : option string)
  (foreground background : Color.t) : draw unit :=
  emit MutexLock ;;;
  emit (SetSourceRgb background) ;;;
  emit (Rectangle (u32 (Settings.width settings + 2)) 0
                  (u32 (Settings.width settings + Settings.desc_size settings))
                  (desc_height_of gl)) ;;;
  emit StrokePreserve ;;;
  emit Fill ;;;
  draw_desc_loop fuel gl text
    (Offset.mk (u32 (Settings.width settings + 2)) (Global.real_font_size gl) 0)
    foreground ;;;
  emit MutexUnlock.

(** Lines 317-320. *)
Definition draw_query_text (gl : Global.t) (text : string) (cursor : Z)
  : draw unit :=
  draw_typed_line gl text 0 cursor
    (Settings.query_fg settings) (Settings.query_bg settings) ;;;
  emit SurfaceFlush.

(** [results[index]]; an index outside the array is a fault. *)
Definition result_at (results : list Result.t) (index : Z)
  : draw Result.t :=
  if index <? 0 then fault
  else match nth_error results (Z.to_nat index) with
       | Some res => ret res
       | None => fault
       end.

(** The [for] loop of lines 361-367.  [index] and [line] are [int32_t];
    the bound is unsigned, so the comparison is. *)
Fixpoint draw_result_rows (fuel row_fuel : nat) (gl : Global.t)
  (results : list Result.t) (index line bound : Z) : draw unit :=
  if u32 index <? bound
  then
    match fuel with
    | O => timeout
    | S fuel' =>
        res <- result_at results index ;;
        (if u32 index =? Global.result_highlight gl
         then draw_line row_fuel gl (Result.text res) (u32 line)
                (Settings.highlight_fg settings) (Settings.highlight_bg settings)
         else draw_line row_fuel gl (Result.text res) (u32 line)
                (Settings.result_fg settings) (Settings.result_bg settings)) ;;;
        draw_result_rows fuel' row_fuel gl results
          (i32 (index + 1)) (i32 (line + 1)) bound
    end
  else ret tt.

(** Lines 337-359: the geometry of the window, and the description panel
    when the highlighted row has one. *)
Definition draw_panel (row_fuel : nat) (gl : Global.t)
  (results : list Result.t) : draw unit :=
  let new_height :=
    c_min (u32 (Settings.height settings * u32 (Global.result_count gl + 1)))
          (Settings.max_height settings) in
  let without_desc :=
    (if Settings.auto_center settings
     then emit (ConfigureWindowXY (Global.win_x_pos gl) (Global.win_y_pos gl))
     else ret tt) ;;;
    emit (ConfigureWindowSize (Settings.width settings) new_height) ;;;
    emit (SurfaceSetSize (Settings.width settings) new_height) in
  if Global.result_highlight gl <? Global.result_count gl
  then
    res <- result_at results (Global.result_highlight gl) ;;
    match Result.desc res with
    | Some desc =>
        (if Settings.auto_center settings
         then emit (ConfigureWindowXY (Global.win_x_pos_with_desc gl)
                                      (Global.win_y_pos gl))
         else ret tt) ;;;
        let w := u32 (Settings.width settings + Settings.desc_size settings) in
        emit (ConfigureWindowSize w new_height) ;;;
        emit (SurfaceSetSize w new_height) ;;;
        draw_desc row_fuel gl (Some desc)
          (Settings.highlight_fg settings) (Settings.highlight_bg settings)
    | None => without_desc
    end
  else without_desc.

(** Lines 322-370.  Returns the updated [global].  A zero row height makes
    line 328 divide by zero. *)
Definition draw_result_text (fuel row_fuel : nat) (gl : Global.t)
  (results : list Result.t) : draw Global.t :=
  if Settings.height settings =? 0 then fault
  else
    let max_results :=
      max_results_of (Settings.max_height settings) (Settings.height settings) in
    let '(gl', display_results) := viewport_window gl max_results in
    draw_panel row_fuel gl' results ;;;
    draw_result_rows fuel row_fuel gl' results
      (i32 (Global.result_offset gl')) 1
      (u32 (Global.result_offset gl' + display_results)) ;;;
    emit SurfaceFlush ;;;
    emit XcbFlush ;;;
    ret gl'.

(** Lines 372-375. *)
Definition redraw_all (fuel row_fuel : nat) (gl : Global.t)
  (query_string : string) (query_cursor_index : Z) : draw Global.t :=
  draw_query_text gl query_string query_cursor_index ;;;
  draw_result_text fuel row_fuel gl (Global.results gl).

End Display.

(** ** Reading a call sequence

    The fills issued before anything is rendered: each with the rectangles
    of the path it fills and the source colour in force.  The walk stops
    at the first call that puts text or an image on the surface. *)
Fixpoint fills_before_render (ops : list draw_op)
  (source : option Color.t) (path : list (Z * Z * Z * Z))
  : list (list (Z * Z * Z * Z) * option Color.t) :=
  match ops with
  | [] => []
  | op :: rest =>
      match op with
      | SetSourceRgb c => fills_before_render rest (Some c) path
      | Rectangle x y w h => fills_before_render rest source (path ++ [(x, y, w, h)])
      | Fill => (path, source) :: fills_before_render rest source []
      | ShowText _ | MaskSurface _ _ _ => []
      | _ => fills_before_render rest source path
      end
  end.

(** The row rectangle of a line: its top edge, the row width, one row
    height. *)
Definition row_rectangle (settings : Settings.t) (line : Z)
  : Z * Z * Z * Z :=
  (0, line * Settings.height settings, Settings.width settings,
   Settings.height settings).

(** ** Views used in the statements *)

(** The font in force when draw_typed_line measures the text: the face
    was just selected (line 90), the size is the one set before. *)
Definition typed_line_font (settings : Settings.t) (f : Font.t) : Font.t :=
  Font.mk (Settings.font_name settings) CAIRO_FONT_WEIGHT_NORMAL (Font.size f).

(** [offset.x] before line 107: the padding of the row, or the shifted
    origin of a text wider than the row. *)
Definition text_origin (width offset_x : Z) (extents : Extents.t) : Z :=
  if width <? Extents.width extents
  then u32 (width - Extents.x_advance extents)
  else offset_x.

(** [cursor_x] after line 107, before the test of line 110. *)
Definition cursor_before_clamp (width offset_x cursor_advance : Z)
  (extents : Extents.t) : Z :=
  i32 (u32 (i32 cursor_advance) + text_origin width offset_x extents).

(** The origin of the text and [cursor_x] that draw_typed_line computes
    for a text and a cursor index, on a context whose font is [f]. *)
Definition typed_line_cursor (settings : Settings.t)
  (text_extents : Font.t -> string -> Extents.t) (f : Font.t)
  (text : string) (cursor : Z) : Z * Z :=
  let font := typed_line_font settings f in
  place_cursor (Settings.width settings) (Settings.horiz_padding settings)
    (Extents.x_advance (text_extents font (substring 0 (Z.to_nat cursor) text)))
    (text_extents font text).

(** The context a routine leaves, however it ends. *)
Definition outcome_cr {A : Type} (o : outcome A) : Cairo.t :=
  match o with
  | Done _ cr => cr
  | Fault cr => cr
  | Timeout cr => cr
  end.

(** A context with further calls recorded. *)
Definition record_ops (cr : Cairo.t) (l : list draw_op) : Cairo.t :=
  Cairo.mk (Cairo.font cr) (Cairo.ops cr ++ l).

(** The file of an image token cannot be opened: the expansion has no
    word, or [access] fails on the expanded name. *)
Definition image_missing (wordexp : string -> option (list string))
  (access : string -> bool) (name : string) : Prop :=
  match fst (expand_file wordexp name) with
  | Some path => access path = false
  | None => True
  end.

(** What draw_image writes for such a file: the diagnostics. *)
Definition missing_image_ops (wordexp : string -> option (list string))
  (name : string) : list draw_op :=
  snd (expand_file wordexp name)
  ++ [Stderr "Cannot open image file" (fst (expand_file wordexp name))].

(** The calls of draw_text. *)
Definition draw_text_ops (settings : Settings.t) (text : option string)
  (offset : Offset.t) (foreground : Color.t) (weight : cairo_font_weight_t)
  : list draw_op :=
  [MoveTo (Offset.x offset) (Offset.y offset);
   SetSourceRgb foreground;
   SelectFontFace (Settings.font_name settings) weight;
   SetFontSize (Settings.font_size settings);
   ShowText text].

(** The font draw_text leaves. *)
Definition draw_text_font (settings : Settings.t)
  (weight : cairo_font_weight_t) : Font.t :=
  Font.mk (Settings.font_name settings) weight (Settings.font_size settings).

(** No call of the list is a [cairo_fill]. *)
Definition no_fill (l : list draw_op) : Prop :=
  Forall (fun op => op <> Fill) l.

(** A routine only adds calls, none of them a [cairo_fill], however it
    ends. *)
Definition adds_no_fill {A : Type} (m : draw A) : Prop :=
  forall cr, exists l,
    no_fill l /\ Cairo.ops (outcome_cr (m cr)) = Cairo.ops cr ++ l.

(** The calls by which draw_image puts a loaded picture on the surface. *)
Definition loaded_image_ops (path : string) (natural drawn : Format.t)
  (offset : Offset.t) (win_size_x win_size_y : Z) : list draw_op :=
  (if (win_size_x <? Format.width natural)
      || (win_size_y <? Format.height natural)
   then [ScaleSurface path (Format.width natural) (Format.height natural)
           (Format.width drawn) (Format.height drawn)]
   else [])
  ++ [SetSourceSurface path (Offset.x offset) (Offset.image_y offset);
      MaskSurface path (Offset.x offset) (Offset.image_y offset)].

(** The size cairo reports for the picture in a file, as stored in an
    [image_format_t]. *)
Definition natural_format (png_size : string -> Z * Z) (path : string)
  : Format.t :=
  Format.mk (u32 (fst (png_size path))) (u32 (snd (png_size path))).

(** The cursor of draw_typed_line is on the text or on its terminator. *)
Definition cursor_on_text (text : string) (cursor : Z) : Prop :=
  0 <= cursor <= Z.of_nat (String.length text).

(** The calls of draw_typed_line before it reads [text[cursor]]. *)
Definition typed_line_background_ops (settings : Settings.t) (line : Z)
  (foreground background : Color.t) : list draw_op :=
  [MutexLock;
   SetSourceRgb background;
   Rectangle 0 (u32 (line * Settings.height settings))
     (Settings.width settings) (u32 ((line + 1) * Settings.height settings));
   StrokePreserve;
   Fill;
   SetSourceRgb foreground;
   SelectFontFace (Settings.font_name settings) CAIRO_FONT_WEIGHT_NORMAL].

(** The calls of draw_typed_line for a cursor on the text, on a context
    whose font is [f]. *)
Definition typed_line_ops (settings : Settings.t)
  (text_extents : Font.t -> string -> Extents.t) (gl : Global.t) (f : Font.t)
  (text : string) (line cursor : Z) (foreground background : Color.t)
  : list draw_op :=
  let offset_y :=
    u32 (u32 (Settings.height settings * line) + Global.real_font_size gl) in
  let placed := typed_line_cursor settings text_extents f text cursor in
  [MutexLock;
   SetSourceRgb background;
   Rectangle 0 (u32 (line * Settings.height settings))
     (Settings.width settings) (u32 ((line + 1) * Settings.height settings));
   StrokePreserve;
   Fill;
   SetSourceRgb foreground;
   SelectFontFace (Settings.font_name settings) CAIRO_FONT_WEIGHT_NORMAL;
   MoveTo (fst placed) offset_y;
   SetFontSize (Settings.font_size settings);
   ShowText (Some text)]
  ++ (if Settings.cursor_is_underline settings
      then [ShowText (Some "_"%string)]
      else [SetSourceRgb foreground;
            Rectangle (snd placed + 2)
              (u32 (offset_y - Settings.font_size settings
                    - Settings.cursor_padding settings))
              0
              (u32 (Settings.font_size settings
                    + u32 (Settings.cursor_padding settings * 2)));
            StrokePreserve;
            Fill])
  ++ [MutexUnlock].

(** ** Single-precision values seen as integers

    Views of the float operations on the units of [2^-149], used to state
    the bounds of the scaler. *)

Module F32View.

Import F32.

(** The rounded value before the test for overflow. *)
Definition raw (n d : Z) : Z :=
  nearest_even n (d * 2 ^ ulp_exp n d) * 2 ^ ulp_exp n d.

(** [(float) N], in units. *)
Definition conv (N : Z) : Z := raw (N * one) 1.

(** The quotient [(float) N / (float) v], in units. *)
Definition quot (N v : Z) : Z := raw (conv N * one) (v * one).

(** [prop * (float) v] converted to an integer, for a factor of [zp]
    units. *)
Definition scaled (zp v : Z) : Z := raw (zp * (v * one)) one / one.

End F32View.

(** The calls of [draw_result_text] on an empty list: the geometry of the
    window and the two flushes. *)
Definition empty_list_ops (settings : Settings.t) (gl : Global.t)
  : list draw_op :=
  let new_height :=
    c_min (u32 (Settings.height settings * u32 (Global.result_count gl + 1)))
          (Settings.max_height settings) in
  (if Settings.auto_center settings
   then [ConfigureWindowXY (Global.win_x_pos gl) (Global.win_y_pos gl)]
   else [])
  ++ [ConfigureWindowSize (Settings.width settings) new_height;
      SurfaceSetSize (Settings.width settings) new_height;
      SurfaceFlush; XcbFlush].


(** ** A concrete configuration, for the examples below *)

Module Sample.

Definition black : Color.t := Color.mk 0 0 0.
Definition white : Color.t := Color.mk 255 255 255.
Definition blue : Color.t := Color.mk 0 0 255.

Definition settings : Settings.t :=
  Settings.mk 5 20 100 100 60 "Sans" 12 false 2 false
              white black white black black blue.

(** A fixed-pitch font: 8 pixels a character, 10 when bold. *)
Definition text_extents (f : Font.t) (s : string) : Extents.t :=
  let n := Z.of_nat (String.length s) in
  match Font.weight f with
  | CAIRO_FONT_WEIGHT_NORMAL => Extents.mk (8 * n) (8 * n)
  | CAIRO_FONT_WEIGHT_BOLD => Extents.mk (10 * n) (10 * n)
  end.

(** A parser of one-character tokens: ['#'] an image named [icon.png],
    ['|'] a line break, ['*'] a bold star, ['?'] a token without data,
    any other character plain text. *)
Definition parse_result_line (f : Font.t) (s : string) (max_width : Z)
  : Draw.t * option string :=
  match s with
  | EmptyString => (Draw.mk DRAW_TEXT None, Some EmptyString)
  | String ch rest =>
      if Ascii.eqb ch "#" then (Draw.mk DRAW_IMAGE (Some "icon.png"%string), Some rest)
      else if Ascii.eqb ch "|" then (Draw.mk NEW_LINE (Some EmptyString), Some rest)
      else if Ascii.eqb ch "*" then (Draw.mk BOLD (Some "*"%string), Some rest)
      else if Ascii.eqb ch "?" then (Draw.mk DRAW_TEXT None, Some rest)
      else (Draw.mk DRAW_TEXT (Some (String ch EmptyString)), Some rest)
  end.

Definition wordexp (s : string) : option (list string) := Some [s].


(** Every file is there, a picture of 48 by 30 pixels. *)
Definition all_access (s : string) : bool := true.
Definition png_size (s : string) : Z * Z := (48, 30).

Definition gl : Global.t :=
  Global.mk 9 5 3 0 10 20 30
    [Result.mk (Some "a"%string) None; Result.mk (Some "b"%string) None;
     Result.mk (Some "c"%string) None; Result.mk (Some "d"%string) None;
     Result.mk (Some "e"%string) None].

Definition cr0 : Cairo.t :=
  Cairo.mk (Font.mk "Sans" CAIRO_FONT_WEIGHT_NORMAL 12) [].

(** A state of five results, highlight on row 2, and a window too low to
    show any row ([max_results = 0]). *)
Definition no_row_visible : Global.t := Global.mk 9 5 2 0 10 20 30 [].

(** A list without results and a stale highlight on row 5. *)
Definition stale_highlight : Global.t := Global.mk 9 0 5 0 10 20 30 [].


End Sample.

(** ** Views used in the further statements *)

(** A routine run on each element of a list, in order. *)
Fixpoint for_each {A : Type} (body : A -> draw unit) (l : list A)
  : draw unit :=
  match l with
  | [] => ret tt
  | a :: l' => body a ;;; for_each body l'
  end.

(** One turn of the loop of lines 361-367, for an index and a line number
    that are not negative: the row [index] of [results] drawn on [line],
    in the highlight colours when it is the highlighted row. *)
Definition draw_row (settings : Settings.t)
  (text_extents : Font.t -> string -> Extents.t)
  (parse_result_line : Font.t -> string -> Z -> Draw.t * option string)
  (wordexp : string -> option (list string)) (access : string -> bool)
  (png_size : string -> Z * Z) (row_fuel : nat) (gl : Global.t)
  (results : list Result.t) (row : Z * Z) : draw unit :=
  res <- result_at results (fst row) ;;
  if fst row =? Global.result_highlight gl
  then draw_line settings text_extents parse_result_line wordexp access
         png_size row_fuel gl (Result.text res) (snd row)
         (Settings.highlight_fg settings) (Settings.highlight_bg settings)
  else draw_line settings text_extents parse_result_line wordexp access
         png_size row_fuel gl (Result.text res) (snd row)
         (Settings.result_fg settings) (Settings.result_bg settings).

(** The rows [first], [first + 1], ... paired with the lines 1, 2, ... *)
Definition rows_from (first line : Z) (n : nat) : list (Z * Z) :=
  map (fun k => (first + Z.of_nat k, line + Z.of_nat k)) (seq 0 n).

(** The parser consumes text: called on a text that is not empty, the
    cursor it leaves, when not [NULL], is on a shorter rest. *)
Definition parser_consumes
  (parse_result_line : Font.t -> string -> Z -> Draw.t * option string)
  : Prop :=
  forall f s max_width rest,
    s <> EmptyString ->
    snd (parse_result_line f s max_width) = Some rest ->
    (String.length rest < String.length s)%nat.

(** The parser leaves its cursor on the text whenever the token has
    data. *)
Definition parser_keeps_cursor
  (parse_result_line : Font.t -> string -> Z -> Draw.t * option string)
  : Prop :=
  forall f s max_width,
    s <> EmptyString ->
    Draw.data (fst (parse_result_line f s max_width)) <> None ->
    snd (parse_result_line f s max_width) <> None.

(** The parser never leaves its cursor at [NULL], and its image tokens
    name a file. *)
Definition parser_total
  (parse_result_line : Font.t -> string -> Z -> Draw.t * option string)
  : Prop :=
  forall f s max_width,
    s <> EmptyString ->
    snd (parse_result_line f s max_width) <> None /\
    (Draw.type (fst (parse_result_line f s max_width)) = DRAW_IMAGE ->
     Draw.data (fst (parse_result_line f s max_width)) <> None).

(** Pictures as cairo hands them out: sides below [2^23], and an empty
    picture (a surface in error) has both sides zero. *)
Definition pictures_well_formed (png_size : string -> Z * Z) : Prop :=
  forall path,
    0 <= fst (png_size path) < 2 ^ 23 /\
    0 <= snd (png_size path) < 2 ^ 23 /\
    (fst (png_size path) = 0 <-> snd (png_size path) = 0).

(** Characters left at a cursor; none at [NULL]. *)
Definition text_length (c : option string) : nat :=
  match c with
  | Some s => String.length s
  | None => O
  end.




(** Further sample data. *)
Module Sample2.

(** Every file is there and none holds a picture. *)
Definition blank_png_size (s : string) : Z * Z := (0, 0).


(** A panel of 60 pixels under a font of 80. *)
Definition narrow_panel : Settings.t :=
  Settings.mk 5 20 100 100 60 "Sans" 80 false 2 false Sample.white
    Sample.black Sample.white Sample.black Sample.black Sample.blue.

End Sample2.

(** * Part II: lemmas and theorems *)


(** ** Facts on machine integers *)

Module Int32Facts.

Lemma modulus_eq : modulus = 4294967296.
Proof. reflexivity. Qed.

Lemma u32_range z : in_u32 (u32 z).
Proof. unfold in_u32, u32. apply Z.mod_pos_bound. rewrite modulus_eq. lia. Qed.

Lemma u32_small z : in_u32 z -> u32 z = z.
Proof. unfold in_u32, u32. intros H. apply Z.mod_small. exact H. Qed.

Lemma i32_small z : - half_modulus <= z < half_modulus -> i32 z = z.
Proof.
  unfold i32, half_modulus. rewrite modulus_eq. intros H.
  destruct (Z_lt_le_dec z 0) as [Hn | Hp].
  - replace (z mod 4294967296) with (z + 4294967296).
    + destruct (Z.ltb_spec (z + 4294967296) (2 ^ 31)); lia.
    + apply (Z.mod_unique z 4294967296 (-1)); lia.
  - rewrite Z.mod_small by lia.
    destruct (Z.ltb_spec z (2 ^ 31)); lia.
Qed.

Lemma u32_i32 z : u32 (i32 z) = u32 z.
Proof.
  unfold i32, u32.
  destruct (z mod modulus <? half_modulus).
  - apply Z.mod_mod. rewrite modulus_eq. lia.
  - rewrite <- (Z.mod_add (z mod modulus - modulus) 1 modulus)
      by (rewrite modulus_eq; lia).
    replace (z mod modulus - modulus + 1 * modulus) with (z mod modulus) by ring.
    apply Z.mod_mod. rewrite modulus_eq. lia.
Qed.

Lemma i32_range z : - half_modulus <= i32 z < half_modulus.
Proof.
  unfold i32.
  pose proof (Z.mod_pos_bound z modulus) as H.
  rewrite modulus_eq in *. unfold half_modulus.
  destruct (Z.ltb_spec (z mod 4294967296) (2 ^ 31)); lia.
Qed.

End Int32Facts.

Import Int32Facts.

(** ** The viewport window *)

Module Viewport.

(** The clamp keeps the count and the offset. *)
Lemma clamp_highlight_fields gl :
  Global.result_count (clamp_highlight gl) = Global.result_count gl /\
  Global.result_offset (clamp_highlight gl) = Global.result_offset gl.
Proof.
  unfold clamp_highlight.
  destruct (u32 (Global.result_count gl - 1) <? Global.result_highlight gl);
    split; reflexivity.
Qed.

(** With a row in the list, the clamp puts the highlight on a row. *)
Lemma clamp_highlight_value gl :
  Global.wf gl -> 0 < Global.result_count gl ->
  Global.result_highlight (clamp_highlight gl)
  = Z.min (Global.result_highlight gl) (Global.result_count gl - 1).
Proof.
  intros (Hc & Hh & Ho) Hpos. unfold clamp_highlight, in_u32 in *.
  rewrite (u32_small (Global.result_count gl - 1)) by (unfold in_u32; lia).
  destruct (Z.ltb_spec (Global.result_count gl - 1) (Global.result_highlight gl));
    simpl; lia.
Qed.

Lemma clamp_highlight_wf gl :
  Global.wf gl -> Global.wf (clamp_highlight gl).
Proof.
  intros (Hc & Hh & Ho). unfold clamp_highlight.
  destruct (u32 (Global.result_count gl - 1) <? Global.result_highlight gl).
  - split; [exact Hc | split; [apply u32_range | exact Ho]].
  - exact (conj Hc (conj Hh Ho)).
Qed.

(** What [scroll_window] does on a state whose highlight is a row, when
    at least one row is visible and [result_offset + display_results]
    does not wrap. *)
Lemma scroll_window_cases gl max_results :
  Global.wf gl ->
  Global.result_highlight gl < Global.result_count gl ->
  1 <= max_results ->
  Global.result_offset gl + c_min (Global.result_count gl) max_results < modulus ->
  let m := c_min (Global.result_count gl) max_results in
  let gl' := fst (scroll_window gl max_results) in
  let display_results := snd (scroll_window gl max_results) in
  Global.result_count gl' = Global.result_count gl /\
  Global.result_highlight gl' = Global.result_highlight gl /\
  ((Global.result_offset gl + m <= Global.result_highlight gl /\
    Global.result_offset gl' = Global.result_highlight gl - (m - 1) /\
    display_results = Global.result_count gl - Global.result_offset gl')
   \/
   (Global.result_highlight gl < Global.result_offset gl /\
    Global.result_offset gl' = Global.result_highlight gl /\
    display_results = m)
   \/
   (Global.result_offset gl <= Global.result_highlight gl
      < Global.result_offset gl + m /\
    Global.result_offset gl' = Global.result_offset gl /\
    display_results = m)).
Proof.
  intros (Hc & Hh & Ho) Hrow Hmax Hsum. unfold in_u32 in *.
  assert (Hm : 1 <= c_min (Global.result_count gl) max_results
               <= Global.result_count gl).
  { unfold c_min. destruct (Z.ltb_spec (Global.result_count gl) max_results); lia. }
  cbv zeta. unfold scroll_window.
  set (m := c_min (Global.result_count gl) max_results) in *.
  rewrite (u32_small (Global.result_offset gl + m)) by (unfold in_u32; lia).
  rewrite (u32_small (Global.result_highlight gl + 1)) by (unfold in_u32; lia).
  rewrite (u32_small (m - 1)) by (unfold in_u32; lia).
  destruct (Z.ltb_spec (Global.result_offset gl + m) (Global.result_highlight gl + 1))
    as [Hdown | Hnot].
  - rewrite (u32_small (Global.result_highlight gl - (m - 1)))
      by (unfold in_u32; lia).
    simpl.
    rewrite (u32_small (Global.result_count gl - _)) by (unfold in_u32; lia).
    repeat split; try reflexivity. left. lia.
  - destruct (Z.ltb_spec (Global.result_highlight gl) (Global.result_offset gl))
      as [Hup | Hin]; simpl.
    + repeat split; try reflexivity. right. left. lia.
    + repeat split; try reflexivity. right. right. lia.
Qed.

(** The window never touches the highlight or the count. *)
Lemma scroll_window_highlight gl max_results :
  Global.result_highlight (fst (scroll_window gl max_results))
  = Global.result_highlight gl /\
  Global.result_count (fst (scroll_window gl max_results))
  = Global.result_count gl.
Proof.
  unfold scroll_window.
  destruct (_ <? _); [split; reflexivity |].
  destruct (_ <? _); split; reflexivity.
Qed.

(** What a run of the window does, for a state of 32-bit fields with a
    result, a visible row and an offset that does not wrap: the highlight
    is clamped, and the window moves down to it, moves up to it, or stays
    where it is. *)
Lemma viewport_window_cases gl max_results :
  Global.wf gl ->
  0 < Global.result_count gl ->
  1 <= max_results ->
  Global.result_offset gl + c_min (Global.result_count gl) max_results < modulus ->
  let gl' := fst (viewport_window gl max_results) in
  let display_results := snd (viewport_window gl max_results) in
  let m := c_min (Global.result_count gl) max_results in
  let hl := Z.min (Global.result_highlight gl) (Global.result_count gl - 1) in
  1 <= m <= Global.result_count gl /\ m <= max_results /\
  Global.result_count gl' = Global.result_count gl /\
  Global.result_highlight gl' = hl /\
  ((Global.result_offset gl + m <= hl /\
    Global.result_offset gl' = hl - (m - 1) /\
    display_results = Global.result_count gl - Global.result_offset gl')
   \/
   (hl < Global.result_offset gl /\
    Global.result_offset gl' = hl /\ display_results = m)
   \/
   (Global.result_offset gl <= hl < Global.result_offset gl + m /\
    Global.result_offset gl' = Global.result_offset gl /\
    display_results = m)).
Proof.
  intros Hwf Hpos Hmax Hsum. cbv zeta. unfold viewport_window.
  pose proof (clamp_highlight_fields gl) as [Hcc Hco].
  pose proof (clamp_highlight_value gl Hwf Hpos) as Hch.
  pose proof (clamp_highlight_wf gl Hwf) as Hwf'.
  destruct Hwf as (Hc & Hh & Ho). unfold in_u32 in *.
  assert (Hrow : Global.result_highlight (clamp_highlight gl)
                 < Global.result_count (clamp_highlight gl)) by lia.
  assert (Hsum' : Global.result_offset (clamp_highlight gl)
                  + c_min (Global.result_count (clamp_highlight gl)) max_results
                  < modulus) by (rewrite Hcc, Hco; exact Hsum).
  pose proof (scroll_window_cases (clamp_highlight gl) max_results
                Hwf' Hrow Hmax Hsum') as Hcases.
  cbv zeta in Hcases. rewrite Hcc, Hco, Hch in Hcases.
  assert (Hm : 1 <= c_min (Global.result_count gl) max_results
               <= Global.result_count gl /\
               c_min (Global.result_count gl) max_results <= max_results).
  { unfold c_min. destruct (Z.ltb_spec (Global.result_count gl) max_results); lia. }
  destruct Hcases as (Hc' & Hh' & Hshape).
  repeat split; try lia; exact Hshape.
Qed.

(** The first scenario of the spec: five results, three visible rows, the
    highlight stepping from row 0 to row 4.  On the way, at row 3,
    [display_results] is 4. *)
Example highlight_steps_down :
  let step gl hl := fst (viewport_window (Global.set_result_highlight gl hl) 3) in
  let g0 := fst (viewport_window (Global.set_result_highlight Sample.gl 0) 3) in
  let g4 := step (step (step (step g0 1) 2) 3) 4 in
  Global.result_offset g4 = 2 /\
  snd (viewport_window (Global.set_result_highlight (step (step (step g0 1) 2) 3) 4) 3)
  = 3.
Proof. vm_compute. split; reflexivity. Qed.

(** The second scenario: three results and ten visible rows. *)
Example short_list_stays_at_top :
  forall hl, 0 <= hl < 3 ->
    viewport_window (Global.mk 9 3 hl 0 10 20 30 []) 10
    = (Global.mk 9 3 hl 0 10 20 30 [], 3).
Proof.
  intros hl Hhl.
  assert (Hcases : hl = 0 \/ hl = 1 \/ hl = 2) by lia.
  destruct Hcases as [-> | [-> | ->]]; vm_compute; reflexivity.
Qed.

(** Why the amended C1 asks for a visible row: with [max_results = 0] the
    window ends one row below the highlight. *)
Example window_below_highlight_without_visible_row :
  Global.result_highlight (fst (viewport_window Sample.no_row_visible 0)) = 2 /\
  Global.result_offset (fst (viewport_window Sample.no_row_visible 0)) = 3.
Proof. vm_compute. split; reflexivity. Qed.

(** Why it asks for an offset that does not wrap: three rows below the
    largest offset the sum wraps to 0 and the new offset wraps too. *)
Example window_wraps_at_the_largest_offsets :
  Global.result_offset
    (fst (viewport_window (Global.mk 9 5 0 4294967293 10 20 30 []) 3))
  = 4294967294.
Proof. vm_compute. reflexivity. Qed.

(** C1, as stated, fails: with five results, three visible rows and the
    highlight moved to row 3 the window moves down to offset 1 and
    [display_results] becomes 4, more than the three visible rows. *)
Lemma window_invariant_fails_moving_down :
  0 < Global.result_count Sample.gl /\
  snd (viewport_window Sample.gl 3) = 4 /\
  ~ window_invariant (fst (viewport_window Sample.gl 3))
                     (snd (viewport_window Sample.gl 3)) 3.
Proof.
  split; [reflexivity |]. split; [vm_compute; reflexivity |].
  intros [_ H]. vm_compute in H. apply H. reflexivity.
Qed.

(** C1, amended: for a state of 32-bit fields with at least one result,
    at least one visible row and an offset that does not wrap when the
    visible rows are added, the window leaves the highlight on a row
    between [result_offset] and [result_offset + display_results - 1] and
    below [result_count].  With [m = min (result_count, max_results)] and
    the clamped highlight [hl]: when the window stays
    ([result_offset <= hl < result_offset + m]) or moves up
    ([hl < result_offset], to [hl]), [display_results] is [m], hence at
    most [max_results]; when it moves down ([result_offset + m <= hl]),
    [result_offset] becomes [hl - (m - 1)] and [display_results] is
    [result_count - result_offset], at least [m]. *)
Theorem viewport_window_invariant gl max_results :
  Global.wf gl ->
  0 < Global.result_count gl ->
  1 <= max_results ->
  Global.result_offset gl + c_min (Global.result_count gl) max_results < modulus ->
  let gl' := fst (viewport_window gl max_results) in
  let display_results := snd (viewport_window gl max_results) in
  let m := c_min (Global.result_count gl) max_results in
  let hl := Global.result_highlight gl' in
  Global.result_offset gl' <= hl <= Global.result_offset gl' + display_results - 1 /\
  hl < Global.result_count gl' /\
  hl = Z.min (Global.result_highlight gl) (Global.result_count gl - 1) /\
  m <= display_results <= Global.result_count gl /\
  (Global.result_offset gl <= hl < Global.result_offset gl + m ->
   Global.result_offset gl' = Global.result_offset gl /\
   display_results = m /\ display_results <= max_results) /\
  (hl < Global.result_offset gl ->
   Global.result_offset gl' = hl /\
   display_results = m /\ display_results <= max_results) /\
  (Global.result_offset gl + m <= hl ->
   Global.result_offset gl' = hl - (m - 1) /\
   display_results = Global.result_count gl - Global.result_offset gl').
Proof.
  intros Hwf Hpos Hmax Hsum.
  pose proof (viewport_window_cases gl max_results Hwf Hpos Hmax Hsum) as Hcases.
  cbv zeta in *.
  destruct Hwf as (Hc & Hh & Ho). unfold in_u32 in *.
  destruct Hcases as (Hm & Hmm & Hc' & Hh' & [Hdown | [Hup | Hin]]);
    rewrite Hc'; rewrite Hh' in *; lia.
Qed.

(** The amended C1 at the state of the counterexample, where the window
    moves down: the offset becomes 1 and four rows are shown. *)
Lemma viewport_window_invariant_witness :
  let gl' := fst (viewport_window Sample.gl 3) in
  let display_results := snd (viewport_window Sample.gl 3) in
  let m := c_min (Global.result_count Sample.gl) 3 in
  let hl := Global.result_highlight gl' in
  Global.result_offset gl' <= hl <= Global.result_offset gl' + display_results - 1 /\
  hl < Global.result_count gl' /\
  hl = Z.min (Global.result_highlight Sample.gl)
             (Global.result_count Sample.gl - 1) /\
  m <= display_results <= Global.result_count Sample.gl /\
  (Global.result_offset Sample.gl <= hl < Global.result_offset Sample.gl + m ->
   Global.result_offset gl' = Global.result_offset Sample.gl /\
   display_results = m /\ display_results <= 3) /\
  (hl < Global.result_offset Sample.gl ->
   Global.result_offset gl' = hl /\
   display_results = m /\ display_results <= 3) /\
  (Global.result_offset Sample.gl + m <= hl ->
   Global.result_offset gl' = hl - (m - 1) /\
   display_results = Global.result_count Sample.gl - Global.result_offset gl').
Proof.
  apply (viewport_window_invariant Sample.gl 3).
  - unfold Global.wf, in_u32. rewrite modulus_eq. simpl. lia.
  - simpl. lia.
  - lia.
  - rewrite modulus_eq. reflexivity.
Defined.

(** C8, as stated, fails: with no visible row the window sits one row
    below the highlight after a run, and moving the highlight up by one
    row moves the offset by two. *)
Lemma scroll_by_two_without_visible_row :
  let g1 := fst (viewport_window Sample.no_row_visible 0) in
  let g2 := fst (viewport_window
                   (Global.set_result_highlight g1 (Global.result_highlight g1 - 1)) 0) in
  Global.result_offset g1 = 3 /\ Global.result_offset g2 = 1 /\
  ~ Z.abs (Global.result_offset g2 - Global.result_offset g1) <= 1.
Proof.
  cbv zeta. split; [vm_compute; reflexivity |].
  split; [vm_compute; reflexivity |].
  intros H. vm_compute in H. apply H. reflexivity.
Qed.

(** C8, amended: with at least one result and at least one visible row
    (and an offset that does not wrap), after a run of the window, moving
    the highlight by one row to another row and running the window again
    changes [result_offset] by at most one. *)
Theorem scroll_minimality gl max_results hl2 :
  Global.wf gl ->
  0 < Global.result_count gl ->
  1 <= max_results ->
  Global.result_offset gl + c_min (Global.result_count gl) max_results < modulus ->
  let g1 := fst (viewport_window gl max_results) in
  0 <= hl2 < Global.result_count gl ->
  hl2 = Global.result_highlight g1 + 1 \/ hl2 = Global.result_highlight g1 - 1 ->
  let g2 := fst (viewport_window (Global.set_result_highlight g1 hl2) max_results) in
  Z.abs (Global.result_offset g2 - Global.result_offset g1) <= 1.
Proof.
  intros Hwf Hpos Hmax Hsum g1 Hhl2 Hmove.
  pose proof (viewport_window_cases gl max_results Hwf Hpos Hmax Hsum) as Hrun.
  cbv zeta in Hrun. fold g1 in Hrun.
  destruct Hrun as (Hm & Hmm & Hc1 & Hh1 & Hshape1).
  assert (Hrange : Global.wf gl) by exact Hwf.
  destruct Hrange as (Hc & Hh & Ho). unfold in_u32 in *.
  (* the window of the first run holds the highlight and does not wrap *)
  assert (Hwin : 0 <= Global.result_offset g1 /\
                 Global.result_offset g1
                   + c_min (Global.result_count gl) max_results < modulus /\
                 Global.result_offset g1 <= Global.result_highlight g1
                 < Global.result_offset g1
                   + c_min (Global.result_count gl) max_results).
  { destruct Hshape1 as [Hd | [Hu | Hi]]; lia. }
  set (gm := Global.set_result_highlight g1 hl2).
  assert (Hgm : Global.result_count gm = Global.result_count gl /\
                Global.result_highlight gm = hl2 /\
                Global.result_offset gm = Global.result_offset g1).
  { unfold gm. simpl. auto. }
  destruct Hgm as (Hgc & Hgh & Hgo).
  assert (Hwfm : Global.wf gm).
  { unfold Global.wf, in_u32. rewrite Hgc, Hgh, Hgo. lia. }
  pose proof (viewport_window_cases gm max_results Hwfm
                ltac:(lia) Hmax ltac:(rewrite Hgc, Hgo; lia)) as Hrun2.
  cbv zeta in Hrun2. rewrite Hgc, Hgh, Hgo in Hrun2.
  cbv zeta. fold gm.
  destruct Hrun2 as (_ & _ & _ & _ & [Hd | [Hu | Hi]]); lia.
Qed.

(** The amended C8 on the sample state: highlight from row 3 to row 4. *)
Lemma scroll_minimality_witness :
  let g1 := fst (viewport_window Sample.gl 3) in
  let g2 := fst (viewport_window (Global.set_result_highlight g1 4) 3) in
  Z.abs (Global.result_offset g2 - Global.result_offset g1) <= 1.
Proof.
  apply (scroll_minimality Sample.gl 3 4).
  - unfold Global.wf, in_u32. rewrite modulus_eq. simpl. lia.
  - simpl. lia.
  - lia.
  - rewrite modulus_eq. reflexivity.
  - simpl. lia.
  - left. reflexivity.
Defined.

End Viewport.

(** ** The clamp of the highlight and the empty list *)

Module Clamp.

Import Viewport.

(** With an empty list the window shows no row: the bound of the row loop
    does not exceed its start. *)
Lemma empty_list_bound gl max_results :
  Global.wf gl -> Global.result_count gl = 0 -> 0 <= max_results ->
  let gl' := fst (viewport_window gl max_results) in
  let display_results := snd (viewport_window gl max_results) in
  in_u32 (Global.result_offset gl') /\
  Global.result_count gl' = 0 /\
  Global.result_highlight gl' = Global.result_highlight gl /\
  Global.win_x_pos gl' = Global.win_x_pos gl /\
  Global.win_y_pos gl' = Global.win_y_pos gl /\
  u32 (Global.result_offset gl' + display_results) <= Global.result_offset gl'.
Proof.
  intros (Hc & Hh & Ho) Hzero Hmax. cbv zeta.
  unfold viewport_window, clamp_highlight. rewrite Hzero.
  change (u32 (0 - 1)) with 4294967295.
  unfold in_u32 in *. rewrite modulus_eq in *.
  destruct (Z.ltb_spec 4294967295 (Global.result_highlight gl)); [lia |].
  unfold scroll_window. rewrite Hzero.
  assert (Hm : c_min 0 max_results = 0).
  { unfold c_min. destruct (Z.ltb_spec 0 max_results); lia. }
  rewrite Hm. rewrite Z.add_0_r.
  change (u32 (0 - 1)) with 4294967295.
  destruct (u32 (Global.result_offset gl) <? u32 (Global.result_highlight gl + 1)).
  - simpl. rewrite Hzero.
    set (off := u32 (Global.result_highlight gl - 4294967295)).
    assert (Hoff : in_u32 off) by apply u32_range.
    unfold in_u32 in Hoff. rewrite modulus_eq in Hoff.
    repeat split; try lia.
    unfold u32 at 1 2. rewrite Z.add_mod_idemp_r by (rewrite modulus_eq; lia).
    replace (off + (0 - off)) with 0 by ring.
    rewrite Z.mod_0_l by (rewrite modulus_eq; lia). lia.
  - destruct (Global.result_highlight gl <? Global.result_offset gl); simpl.
    + rewrite Z.add_0_r, u32_small by (unfold in_u32; rewrite modulus_eq; lia).
      repeat split; lia.
    + rewrite Z.add_0_r, u32_small by (unfold in_u32; rewrite modulus_eq; lia).
      repeat split; lia.
Qed.

(** C2, as stated, fails when the list is empty: [result_count - 1] wraps
    to the largest 32-bit value, the test of line 324 is false and the
    highlight keeps its value instead of going to 0. *)
Lemma empty_list_keeps_highlight :
  Global.result_count Sample.stale_highlight = 0 /\
  Global.result_count Sample.stale_highlight <= Global.result_highlight Sample.stale_highlight /\
  Global.result_highlight (fst (viewport_window Sample.stale_highlight 3)) = 5 /\
  Global.result_highlight (fst (viewport_window Sample.stale_highlight 3)) <> 0.
Proof.
  split; [reflexivity |]. split; [simpl; lia |].
  split; [vm_compute; reflexivity |].
  vm_compute. discriminate.
Qed.

Section EmptyList.

Variable settings : Settings.t.
Variable text_extents : Font.t -> string -> Extents.t.
Variable parse_result_line : Font.t -> string -> Z -> Draw.t * option string.
Variable wordexp : string -> option (list string).
Variable access : string -> bool.
Variable png_size : string -> Z * Z.

(** C2, amended: a highlight at or beyond [result_count] is reset to
    [result_count - 1] when the list has a row; when the list is empty the
    highlight keeps its value, no result row is drawn and the frame only
    sets the geometry of the window and flushes. *)
Theorem clamp_resets_highlight gl :
  Global.wf gl ->
  Global.result_count gl <= Global.result_highlight gl ->
  (0 < Global.result_count gl ->
   forall max_results,
     Global.result_highlight (fst (viewport_window gl max_results))
     = Global.result_count gl - 1) /\
  (Global.result_count gl = 0 ->
   (forall max_results,
      0 <= max_results ->
      Global.result_highlight (fst (viewport_window gl max_results))
      = Global.result_highlight gl) /\
   (Settings.height settings <> 0 ->
    forall fuel row_fuel results cr,
      draw_result_text settings text_extents parse_result_line wordexp access
        png_size fuel row_fuel gl results cr
      = Done (fst (viewport_window gl
                     (max_results_of (Settings.max_height settings)
                                     (Settings.height settings))))
             (Cairo.mk (Cairo.font cr) (Cairo.ops cr ++ empty_list_ops settings gl)))).
Proof.
  intros Hwf Hout. split.
  - intros Hpos max_results. unfold viewport_window.
    rewrite (proj1 (scroll_window_highlight _ _)).
    rewrite (clamp_highlight_value gl Hwf Hpos). lia.
  - intros Hzero. split.
    + intros max_results Hmax.
      apply (empty_list_bound gl max_results Hwf Hzero Hmax).
    + intros Hheight fuel row_fuel results cr.
      unfold draw_result_text.
      destruct (Z.eqb_spec (Settings.height settings) 0) as [? | _];
        [contradiction |].
      set (max_results := max_results_of _ _).
      assert (Hmax : 0 <= max_results).
      { unfold max_results, max_results_of. apply u32_range. }
      pose proof (empty_list_bound gl max_results Hwf Hzero Hmax) as Hb.
      cbv zeta in Hb.
      destruct (viewport_window gl max_results) as [gl' display_results].
      simpl fst in *. simpl snd in *.
      destruct Hb as (Hoff & Hc' & Hh' & Hx & Hy & Hbound).
      unfold draw_panel.
      destruct Hwf as (Hc & Hh & Ho). unfold in_u32 in *.
      destruct (Z.ltb_spec (Global.result_highlight gl') (Global.result_count gl'));
        [lia |].
      assert (Hloop : (u32 (i32 (Global.result_offset gl'))
                       <? u32 (Global.result_offset gl' + display_results))
                      = false).
      { rewrite u32_i32, u32_small by exact Hoff. apply Z.ltb_ge. exact Hbound. }
      unfold empty_list_ops. rewrite Hc', Hzero, Hx, Hy.
      destruct fuel as [| fuel]; simpl draw_result_rows; rewrite Hloop;
        destruct (Settings.auto_center settings);
        unfold bind, emit, ret; simpl; rewrite <- ?app_assoc; reflexivity.
Qed.

End EmptyList.

(** The amended C2, both on a list of five rows with the highlight on
    row 7 and on the empty list of the counterexample. *)
Lemma clamp_resets_highlight_witness :
  Global.result_highlight
    (fst (viewport_window (Global.set_result_highlight Sample.gl 7) 3)) = 4 /\
  Global.result_highlight (fst (viewport_window Sample.stale_highlight 3)) = 5 /\
  draw_result_text Sample.settings Sample.text_extents Sample.parse_result_line
    Sample.wordexp Sample.all_access Sample.png_size 1 1 Sample.stale_highlight []
    Sample.cr0
  = Done (fst (viewport_window Sample.stale_highlight 4))
         (Cairo.mk (Cairo.font Sample.cr0)
            [ConfigureWindowSize 100 20; SurfaceSetSize 100 20;
             SurfaceFlush; XcbFlush]).
Proof.
  assert (Hwf : forall hl, 0 <= hl < 100 ->
            Global.wf (Global.set_result_highlight Sample.gl hl)).
  { intros hl Hhl. unfold Global.wf, in_u32. rewrite modulus_eq. simpl. lia. }
  assert (Hwf0 : Global.wf Sample.stale_highlight).
  { unfold Global.wf, in_u32. rewrite modulus_eq. simpl. lia. }
  split; [| split].
  - apply (proj1 (clamp_resets_highlight Sample.settings Sample.text_extents
                    Sample.parse_result_line Sample.wordexp Sample.all_access
                    Sample.png_size (Global.set_result_highlight Sample.gl 7)
                    (Hwf 7 ltac:(lia)) ltac:(simpl; lia))).
    simpl. lia.
  - apply (proj2 (clamp_resets_highlight Sample.settings Sample.text_extents
                    Sample.parse_result_line Sample.wordexp Sample.all_access
                    Sample.png_size Sample.stale_highlight Hwf0 ltac:(simpl; lia))).
    + reflexivity.
    + lia.
  - apply (proj2 (clamp_resets_highlight Sample.settings Sample.text_extents
                    Sample.parse_result_line Sample.wordexp Sample.all_access
                    Sample.png_size Sample.stale_highlight Hwf0 ltac:(simpl; lia))).
    + reflexivity.
    + simpl. lia.
Defined.

End Clamp.

(** ** Facts on single-precision rounding *)

Module F32Facts.

Import F32 F32View.

Lemma round_ratio_raw n d :
  round_ratio n d = if raw n d <? huge then Fin (raw n d) else Inf.
Proof. reflexivity. Qed.

Lemma pow2_pos e : 0 <= e -> 0 < 2 ^ e.
Proof. intros. apply Z.pow_pos_nonneg; lia. Qed.

Lemma pow2_split a b : 0 <= a -> 0 <= b -> 2 ^ (a + b) = 2 ^ a * 2 ^ b.
Proof. intros. apply Z.pow_add_r; assumption. Qed.

Lemma pow2_le a b : 0 <= a <= b -> 2 ^ a <= 2 ^ b.
Proof. intros. apply Z.pow_le_mono_r; lia. Qed.

(** [nearest_even n den] is an integer nearest to [n / den]. *)
Lemma nearest_even_spec n den :
  0 <= n -> 0 < den ->
  let m := nearest_even n den in
  0 <= m /\
  - den <= 2 * (m * den - n) <= den /\
  (forall R, n <= R * den -> m <= R) /\
  (forall R, R * den <= n -> R <= m).
Proof.
  intros Hn Hden. cbv zeta. unfold nearest_even.
  pose proof (Z.div_mod n den ltac:(lia)) as Hdm.
  pose proof (Z.mod_pos_bound n den Hden) as Hr.
  pose proof (Z.div_pos n den Hn Hden) as Hq.
  set (q := n / den) in *. set (r := n mod den) in *.
  assert (Hup : forall R, n <= R * den -> q <= R) by (intros R HR; nia).
  assert (Hup' : forall R, n <= R * den -> 0 < r -> q + 1 <= R)
    by (intros R HR Hpos; nia).
  assert (Hlo : forall R, R * den <= n -> R <= q) by (intros R HR; nia).
  assert (Hfin : forall m, (m = q /\ 2 * r <= den) \/ (m = q + 1 /\ den <= 2 * r) ->
            0 <= m /\ - den <= 2 * (m * den - n) <= den /\
            (forall R, n <= R * den -> m <= R) /\
            (forall R, R * den <= n -> R <= m)).
  { intros m [[-> Hm] | [-> Hm]].
    - repeat split; try nia; auto.
    - repeat split; try nia;
        intros R HR; first [apply Hup'; lia | specialize (Hlo R HR); lia]. }
  destruct (Z.ltb_spec (2 * r) den) as [H1 | H1]; [apply Hfin; left; lia |].
  destruct (Z.ltb_spec den (2 * r)) as [H2 | H2]; [apply Hfin; right; lia |].
  destruct (Z.even q); apply Hfin; [left | right]; lia.
Qed.

(** The exponent of the last place brackets [n / d]. *)
Lemma ulp_exp_spec n d :
  0 <= n -> 0 < d ->
  let e := ulp_exp n d in
  0 <= e /\ n < d * 2 ^ (e + 24) /\ (e = 0 \/ d * 2 ^ (e + 23) <= n).
Proof.
  intros Hn Hd. cbv zeta. unfold ulp_exp, prec.
  destruct (Z.ltb_spec n (d * 2 ^ 24)) as [Hsmall | Hbig].
  - split; [lia |]. split; [exact Hsmall | left; reflexivity].
  - assert (Hn' : 0 < n) by (assert (0 < 2 ^ 24) by (apply pow2_pos; lia); nia).
    pose proof (Z.log2_spec n Hn') as [Ha1 Ha2].
    pose proof (Z.log2_spec d Hd) as [Hb1 Hb2].
    pose proof (Z.log2_nonneg n) as Ha0.
    pose proof (Z.log2_nonneg d) as Hb0.
    set (a := Z.log2 n) in *. set (b := Z.log2 d) in *.
    assert (Hab : b + 24 <= a).
    { destruct (Z_lt_le_dec a (b + 24)) as [Hlt | ?]; [| assumption].
      exfalso.
      assert (2 ^ Z.succ a <= 2 ^ (b + 24)) by (apply pow2_le; lia).
      rewrite (pow2_split b 24) in H by lia. nia. }
    unfold ilog2_ratio. fold a b.
    assert (Hk : 2 ^ a = 2 ^ b * 2 ^ (a - b)).
    { rewrite <- pow2_split by lia. f_equal. lia. }
    assert (Hk1 : 2 ^ (a - b) = 2 * 2 ^ (a - b - 1)).
    { replace (a - b) with (1 + (a - b - 1)) at 1 by lia.
      rewrite pow2_split by lia. reflexivity. }
    assert (Hpk : 0 < 2 ^ (a - b - 1)) by (apply pow2_pos; lia).
    assert (Hsa : 2 ^ Z.succ a = 2 * 2 ^ a).
    { unfold Z.succ. rewrite Z.add_comm, pow2_split by lia. reflexivity. }
    assert (Hsb : 2 ^ Z.succ b = 2 * 2 ^ b).
    { unfold Z.succ. rewrite Z.add_comm, pow2_split by lia. reflexivity. }
    assert (Hpb : 0 < 2 ^ b) by (apply pow2_pos; lia).
    destruct (Z.leb_spec (d * 2 ^ (a - b)) n) as [Hle | Hgt].
    + split; [lia |].
      replace (a - b - (24 - 1) + 24) with (1 + (a - b)) by lia.
      replace (a - b - (24 - 1) + 23) with (a - b) by lia.
      rewrite pow2_split by lia.
      split; [| right; exact Hle]. change (2 ^ 1) with 2. nia.
    + split; [lia |].
      replace (a - b - 1 - (24 - 1) + 24) with (a - b) by lia.
      replace (a - b - 1 - (24 - 1) + 23) with (a - b - 1) by lia.
      split; [exact Hgt | right]. nia.
Qed.

(** Shape of a rounded value: a mantissa [m] nearest to [n / (d 2^e)] on
    the grid of the exponent [e]. *)
Lemma raw_spec n d :
  0 <= n -> 0 < d ->
  exists e m,
    raw n d = m * 2 ^ e /\ 0 <= e /\ 0 < 2 ^ e /\ 0 <= m /\
    n < d * (2 ^ e * 2 ^ 24) /\
    (e = 0 \/ d * (2 ^ e * 2 ^ 23) <= n) /\
    - (d * 2 ^ e) <= 2 * (m * (d * 2 ^ e) - n) <= d * 2 ^ e /\
    (forall R, n <= R * (d * 2 ^ e) -> m <= R) /\
    (forall R, R * (d * 2 ^ e) <= n -> R <= m).
Proof.
  intros Hn Hd.
  pose proof (ulp_exp_spec n d Hn Hd) as He. cbv zeta in He.
  destruct He as (He0 & Hhi & Hlo).
  rewrite pow2_split in Hhi by lia.
  assert (Hlo' : ulp_exp n d = 0 \/ d * (2 ^ ulp_exp n d * 2 ^ 23) <= n).
  { destruct Hlo as [? | Hlo]; [left; assumption | right].
    rewrite pow2_split in Hlo by lia. exact Hlo. }
  pose proof (pow2_pos _ He0) as Hpe.
  assert (Hden : 0 < d * 2 ^ ulp_exp n d) by nia.
  pose proof (nearest_even_spec n _ Hn Hden) as Hm. cbv zeta in Hm.
  destruct Hm as (Hm0 & Herr & Hup & Hdown).
  exists (ulp_exp n d), (nearest_even n (d * 2 ^ ulp_exp n d)).
  unfold raw. repeat split; try assumption; try lia.
Qed.

Lemma raw_nonneg n d : 0 <= n -> 0 < d -> 0 <= raw n d.
Proof.
  intros Hn Hd. destruct (raw_spec n d Hn Hd) as (e & m & -> & _ & Hpe & Hm & _).
  nia.
Qed.

(** Rounding never crosses a number of at most 24 significant bits. *)
Lemma raw_le_representable n d k j :
  0 <= n -> 0 < d -> 0 <= k <= 2 ^ 24 -> 0 <= j ->
  n <= k * 2 ^ j * d -> raw n d <= k * 2 ^ j.
Proof.
  intros Hn Hd Hk Hj Hle.
  destruct (raw_spec n d Hn Hd)
    as (e & m & -> & He & Hpe & Hm & Hhi & Hlo & Herr & Hup & Hdown).
  pose proof (pow2_pos j Hj) as Hpj.
  destruct (Z_le_gt_dec e j) as [Hej | Hje].
  - assert (Hs : 2 ^ j = 2 ^ (j - e) * 2 ^ e).
    { rewrite <- pow2_split by lia. f_equal. lia. }
    assert (Hp : 0 < 2 ^ (j - e)) by (apply pow2_pos; lia).
    assert (HR : m <= k * 2 ^ (j - e)).
    { apply Hup. rewrite Hs in Hle. nia. }
    rewrite Hs. nia.
  - assert (Hs : 2 ^ e = 2 * 2 ^ j * 2 ^ (e - 1 - j)).
    { replace e with (1 + j + (e - 1 - j)) at 1 by lia.
      rewrite !pow2_split by lia. reflexivity. }
    assert (Hp : 0 < 2 ^ (e - 1 - j)) by (apply pow2_pos; lia).
    destruct Hlo as [? | Hlo]; [lia |].
    change (2 ^ 24) with 16777216 in *. change (2 ^ 23) with 8388608 in *.
    assert (Hkj : k * 2 ^ j <= 8388608 * 2 ^ e) by (rewrite Hs; nia).
    assert (HR : m <= 8388608).
    { apply Hup. nia. }
    assert (Hge : 2 ^ e * 8388608 <= k * 2 ^ j) by nia.
    nia.
Qed.

Lemma raw_ge_representable n d k j :
  0 <= n -> 0 < d -> 0 <= k <= 2 ^ 24 -> 0 <= j ->
  k * 2 ^ j * d <= n -> k * 2 ^ j <= raw n d.
Proof.
  intros Hn Hd Hk Hj Hle.
  destruct (raw_spec n d Hn Hd)
    as (e & m & -> & He & Hpe & Hm & Hhi & Hlo & Herr & Hup & Hdown).
  pose proof (pow2_pos j Hj) as Hpj.
  destruct (Z_le_gt_dec e j) as [Hej | Hje].
  - assert (Hs : 2 ^ j = 2 ^ (j - e) * 2 ^ e).
    { rewrite <- pow2_split by lia. f_equal. lia. }
    assert (Hp : 0 < 2 ^ (j - e)) by (apply pow2_pos; lia).
    assert (HR : k * 2 ^ (j - e) <= m).
    { apply Hdown. rewrite Hs in Hle. nia. }
    rewrite Hs. nia.
  - assert (Hs : 2 ^ e = 2 * 2 ^ j * 2 ^ (e - 1 - j)).
    { replace e with (1 + j + (e - 1 - j)) at 1 by lia.
      rewrite !pow2_split by lia. reflexivity. }
    assert (Hp : 0 < 2 ^ (e - 1 - j)) by (apply pow2_pos; lia).
    destruct Hlo as [? | Hlo]; [lia |].
    change (2 ^ 24) with 16777216 in *. change (2 ^ 23) with 8388608 in *.
    assert (HR : 8388608 <= m).
    { apply Hdown. nia. }
    assert (Hkj : k * 2 ^ j <= 8388608 * 2 ^ e) by (rewrite Hs; nia).
    nia.
Qed.

(** In the normal range the relative error is at most [2^-24]. *)
Lemma raw_error n d :
  0 <= n -> 0 < d -> d * 2 ^ 23 <= n ->
  - n <= 2 ^ 24 * (raw n d * d - n) <= n.
Proof.
  intros Hn Hd Hnormal.
  destruct (raw_spec n d Hn Hd)
    as (e & m & -> & He & Hpe & Hm & Hhi & Hlo & Herr & Hup & Hdown).
  change (2 ^ 24) with 16777216 in *. change (2 ^ 23) with 8388608 in *.
  assert (Hn' : d * (2 ^ e * 8388608) <= n).
  { destruct Hlo as [-> | Hlo]; [| exact Hlo].
    change (2 ^ 0) with 1. lia. }
  nia.
Qed.

(** *** Whole and half units

    The bounds above, for multiples of 1.0 and of 0.5; [one] stays
    folded from here on. *)

Lemma one_pos : 0 < one.
Proof. unfold one. apply pow2_pos. lia. Qed.

Lemma one_large : 2 ^ 46 <= one.
Proof. unfold one. apply pow2_le. lia. Qed.

Lemma huge_eq : huge = 2 ^ 128 * one.
Proof. reflexivity. Qed.

Lemma raw_le_units n d k :
  0 <= n -> 0 < d -> 0 <= k <= 2 ^ 24 ->
  n <= k * one * d -> raw n d <= k * one.
Proof. intros. apply raw_le_representable; unfold one in *; lia. Qed.

Lemma raw_ge_units n d k :
  0 <= n -> 0 < d -> 0 <= k <= 2 ^ 24 ->
  k * one * d <= n -> k * one <= raw n d.
Proof. intros. apply raw_ge_representable; unfold one in *; lia. Qed.

Lemma one_halves : one = 2 * 2 ^ 148.
Proof. reflexivity. Qed.

Lemma raw_le_half_units n d k :
  0 <= n -> 0 < d -> 0 <= k <= 2 ^ 24 ->
  2 * n <= k * one * d -> 2 * raw n d <= k * one.
Proof.
  intros Hn Hd Hk Hle. rewrite one_halves in *.
  assert (raw n d <= k * 2 ^ 148); [| lia].
  apply raw_le_representable; lia.
Qed.

Lemma raw_ge_half_units n d k :
  0 <= n -> 0 < d -> 0 <= k <= 2 ^ 24 ->
  k * one * d <= 2 * n -> k * one <= 2 * raw n d.
Proof.
  intros Hn Hd Hk Hle. rewrite one_halves in *.
  assert (k * 2 ^ 148 <= raw n d); [| lia].
  apply raw_ge_representable; lia.
Qed.

Lemma raw_le_2p32 n d :
  0 <= n -> 0 < d -> n <= 2 ^ 32 * one * d -> raw n d <= 2 ^ 32 * one.
Proof.
  intros Hn Hd Hle.
  assert (Hp : 2 ^ 32 * one = 1 * 2 ^ 181) by reflexivity.
  rewrite Hp in *. apply raw_le_representable; lia.
Qed.

Lemma raw_zero d : 0 < d -> raw 0 d = 0.
Proof.
  intros Hd.
  pose proof (raw_nonneg 0 d ltac:(lia) Hd).
  pose proof (raw_le_units 0 d 0 ltac:(lia) Hd ltac:(lia) ltac:(lia)). lia.
Qed.

Lemma round_ratio_fin n d :
  0 <= n -> 0 < d -> raw n d <= 2 ^ 32 * one ->
  round_ratio n d = Fin (raw n d).
Proof.
  intros Hn Hd Hle. rewrite round_ratio_raw, huge_eq.
  pose proof one_pos.
  destruct (Z.ltb_spec (raw n d) (2 ^ 128 * one)) as [_ | Hge];
    [reflexivity |].
  exfalso. assert (2 ^ 32 < 2 ^ 128) by (apply Z.pow_lt_mono_r; lia). nia.
Qed.

Lemma of_u32_conv N :
  0 <= N < 2 ^ 32 ->
  of_u32 N = Fin (conv N) /\ 0 <= conv N <= 2 ^ 32 * one /\
  (N <= 2 ^ 24 -> conv N = N * one) /\
  (forall v, 0 <= v <= 2 ^ 24 -> v <= N -> v * one <= conv N).
Proof.
  intros HN. pose proof one_pos as HU. unfold of_u32, conv.
  assert (Hn : 0 <= N * one) by nia.
  assert (Hle : raw (N * one) 1 <= 2 ^ 32 * one)
    by (apply raw_le_2p32; nia).
  split; [apply round_ratio_fin; lia |].
  split; [split; [apply raw_nonneg; lia | exact Hle] |].
  split.
  - intros Hsmall.
    pose proof (raw_le_units (N * one) 1 N Hn ltac:(lia) ltac:(lia) ltac:(lia)).
    pose proof (raw_ge_units (N * one) 1 N Hn ltac:(lia) ltac:(lia) ltac:(lia)).
    lia.
  - intros v Hv HvN. apply raw_ge_units; try lia. nia.
Qed.

Lemma div_quot N v :
  0 <= N < 2 ^ 32 -> 1 <= v < 2 ^ 23 ->
  div (of_u32 N) (of_u32 v) = Fin (quot N v) /\
  0 <= quot N v <= 2 ^ 32 * one /\
  (N <= v -> quot N v <= one) /\
  (v <= N -> one <= quot N v) /\
  (N < v -> - (N * one) <= 2 ^ 24 * (quot N v * v - N * one) <= N * one).
Proof.
  intros HN Hv. pose proof one_pos as HU. pose proof one_large as HUL.
  change (2 ^ 46) with 70368744177664 in HUL.
  change (2 ^ 23) with 8388608 in *.
  assert (Hv32 : 0 <= v < 2 ^ 32) by (change (2 ^ 32) with 4294967296; lia).
  destruct (of_u32_conv N HN) as (HfN & HcN & HeN & HlN).
  destruct (of_u32_conv v Hv32) as (Hfv & _ & Hev & _).
  rewrite Hev in Hfv by (change (2 ^ 24) with 16777216; lia).
  rewrite HfN, Hfv. unfold div, quot.
  assert (Hd : 0 < v * one) by nia.
  assert (Hn : 0 <= conv N * one) by nia.
  assert (Hle : raw (conv N * one) (v * one) <= 2 ^ 32 * one).
  { apply raw_le_2p32; try assumption. nia. }
  destruct (Z.eqb_spec (v * one) 0) as [? | _]; [lia |].
  split; [apply round_ratio_fin; assumption |].
  split; [split; [apply raw_nonneg; assumption | exact Hle] |].
  split; [| split].
  - intros HNv.
    assert (HeN' : conv N = N * one)
      by (apply HeN; change (2 ^ 24) with 16777216; lia).
    rewrite HeN' in *.
    assert (Hx : raw (N * one * one) (v * one) <= 1 * one); [| lia].
    apply raw_le_units; try assumption; [change (2 ^ 24) with 16777216; lia |].
    nia.
  - intros HvN.
    assert (Hvc : v * one <= conv N).
    { apply HlN; [change (2 ^ 24) with 16777216; lia | exact HvN]. }
    assert (Hx : 1 * one <= raw (conv N * one) (v * one)); [| lia].
    apply raw_ge_units; try assumption; [change (2 ^ 24) with 16777216; lia |].
    nia.
  - intros HNv.
    assert (HeN' : conv N = N * one)
      by (apply HeN; change (2 ^ 24) with 16777216; lia).
    rewrite HeN' in *.
    destruct (Z.eq_dec N 0) as [-> | Hnz].
    + change (0 * one) with 0. rewrite raw_zero by assumption. lia.
    + pose proof (raw_error (N * one * one) (v * one) Hn Hd) as Herr.
      change (2 ^ 23) with 8388608 in Herr.
      assert (Hnormal : v * one * 8388608 <= N * one * one) by nia.
      specialize (Herr Hnormal).
      set (q := raw (N * one * one) (v * one)) in *.
      change (2 ^ 24) with 16777216 in *.
      split.
      * apply (Z.mul_le_mono_pos_r _ _ one HU). lia.
      * apply (Z.mul_le_mono_pos_r _ _ one HU). lia.
Qed.

End F32Facts.

(** ** The image scaler *)

Module Scaler.

Import F32 F32View F32Facts.

Lemma mul_scaled zp v :
  0 <= zp <= one -> 1 <= v < 2 ^ 23 ->
  to_u32 (mul (Fin zp) (of_u32 v)) = Some (scaled zp v) /\
  0 <= scaled zp v <= v.
Proof.
  intros Hzp Hv. pose proof one_pos as HU.
  change (2 ^ 23) with 8388608 in *.
  destruct (of_u32_conv v ltac:(change (2 ^ 32) with 4294967296; lia))
    as (Hfv & _ & Hev & _).
  rewrite Hev in Hfv by (change (2 ^ 24) with 16777216; lia).
  rewrite Hfv. unfold mul, scaled.
  assert (Hn : 0 <= zp * (v * one)) by nia.
  assert (Hle : raw (zp * (v * one)) one <= v * one).
  { apply raw_le_units; try assumption; [change (2 ^ 24) with 16777216; lia |].
    nia. }
  pose proof (raw_nonneg _ _ Hn HU) as Hge.
  rewrite round_ratio_fin; try assumption;
    [| change (2 ^ 32) with 4294967296; nia].
  set (z := raw (zp * (v * one)) one) in *.
  assert (Hdiv : 0 <= z / one <= v).
  { split; [apply Z.div_pos; lia |].
    apply Z.div_le_upper_bound; [exact HU | lia]. }
  unfold to_u32. rewrite Int32Facts.modulus_eq.
  destruct (Z.ltb_spec (z / one) 4294967296); [| lia].
  split; [reflexivity | exact Hdiv].
Qed.

(** The factor [prop] is the rounded smaller ratio: within a relative
    [2^-24] of [B1 / v1] when that ratio is below 1 and not above
    [B2 / v2]. *)
Lemma prop_bounds B1 v1 B2 v2 zp :
  0 <= B1 < 2 ^ 32 -> 0 <= B2 < 2 ^ 32 ->
  1 <= v1 < 2 ^ 23 -> 1 <= v2 < 2 ^ 23 ->
  B1 < v1 -> B1 * v2 <= B2 * v1 ->
  zp = quot B1 v1 \/ zp = quot B2 v2 ->
  zp <= quot B1 v1 -> zp <= quot B2 v2 ->
  0 <= zp <= one /\
  2 ^ 24 * zp * v1 <= (2 ^ 24 + 1) * B1 * one /\
  (2 ^ 24 - 1) * B1 * one <= 2 ^ 24 * zp * v1.
Proof.
  intros HB1 HB2 Hv1 Hv2 Hlt Hratio Hzp Hle1 Hle2.
  pose proof one_pos as HU.
  destruct (div_quot B1 v1 HB1 Hv1) as (_ & Hq1 & Hone1 & _ & Herr1).
  destruct (div_quot B2 v2 HB2 Hv2) as (_ & Hq2 & _ & Hbig2 & Herr2).
  specialize (Hone1 ltac:(lia)). specialize (Herr1 Hlt).
  change (2 ^ 24) with 16777216 in *. change (2 ^ 23) with 8388608 in *.
  set (q1 := quot B1 v1) in *. set (q2 := quot B2 v2) in *.
  assert (H0 : 0 <= zp) by (destruct Hzp; subst; lia).
  split; [lia |]. split; [nia |].
  destruct Hzp as [-> | ->]; [lia |].
  destruct (Z_le_gt_dec v2 B2) as [Hfit | Hexc].
  - specialize (Hbig2 Hfit). nia.
  - specialize (Herr2 ltac:(lia)).
    assert (Hx : (16777216 - 1) * B1 * one * v2 <= 16777216 * q2 * v1 * v2).
    { assert (16777215 * (B1 * v2) * one <= 16777215 * (B2 * v1) * one) by nia.
      assert (16777215 * (B2 * one) * v1 <= 16777216 * (q2 * v2) * v1) by nia.
      nia. }
    apply (Z.mul_le_mono_pos_r _ _ v2); [lia | exact Hx].
Qed.

(** A side scaled by such a factor is the exact truncated value, give or
    take a pixel. *)
Lemma scaled_near zp v sn sd :
  0 <= zp <= one ->
  2 ^ 24 * zp * sd <= (2 ^ 24 + 1) * sn * one ->
  (2 ^ 24 - 1) * sn * one <= 2 ^ 24 * zp * sd ->
  0 <= sn < sd -> 1 <= sd < 2 ^ 23 -> 1 <= v < 2 ^ 23 ->
  v * sn / sd - 1 <= scaled zp v <= v * sn / sd + 1.
Proof.
  intros Hzp Hup Hlo Hsn Hsd Hv.
  pose proof one_pos as HU.
  change (2 ^ 24) with 16777216 in *. change (2 ^ 23) with 8388608 in *.
  assert (Hsd0 : 0 < sd) by lia.
  pose proof (Z.mul_div_le (v * sn) sd Hsd0) as HF1.
  pose proof (Z.mul_succ_div_gt (v * sn) sd Hsd0) as HF2.
  assert (HF0 : 0 <= v * sn / sd) by (apply Z.div_pos; nia).
  set (F := v * sn / sd) in *.
  assert (HFv : F < v) by nia.
  assert (Hn : 0 <= zp * (v * one)) by nia.
  unfold scaled. set (z := raw (zp * (v * one)) one).
  split.
  - destruct (Z.eq_dec F 0) as [HFz | HFnz].
    + assert (0 <= z / one); [| lia].
      apply Z.div_pos; [apply raw_nonneg; lia | lia].
    + assert (Hk : (2 * F - 1) * one <= 2 * z).
      { apply raw_ge_half_units; try assumption;
          [change (2 ^ 24) with 16777216; lia |].
        assert (Hc : 16777215 * F * one * sd <= 16777216 * (zp * v) * sd).
        { assert (16777215 * (sd * F) * one <= 16777215 * (v * sn) * one) by nia.
          nia. }
        apply Z.mul_le_mono_pos_r in Hc; [| lia].
        assert (2 * F * one <= 16777216 * one) by nia.
        nia. }
      apply Z.div_le_lower_bound; [exact HU | nia].
  - assert (Hk : 2 * z <= (2 * F + 3) * one).
    { apply raw_le_half_units; try assumption;
        [change (2 ^ 24) with 16777216; lia |].
      assert (Hc : 16777216 * (zp * v) * sd
                   <= (16777216 * (F + 1) + v) * one * sd).
      { assert (16777216 * (zp * v) * sd <= 16777217 * (v * sn) * one) by nia.
        assert (v * sn <= sd * Z.succ F) by lia.
        assert (v * sn <= v * sd) by nia.
        nia. }
      apply Z.mul_le_mono_pos_r in Hc; [| lia].
      assert (2 * v * one <= 16777216 * one) by nia.
      nia. }
    assert (z / one < F + 2); [| lia].
    apply Z.div_lt_upper_bound; [exact HU | nia].
Qed.

(** A side that exceeds its bound comes out within the bound. *)
Lemma scaled_in_box zp v B :
  0 <= zp <= one -> 1 <= v < 2 ^ 23 -> 0 <= B < v ->
  2 ^ 24 * zp * v <= (2 ^ 24 + 1) * B * one ->
  scaled zp v <= B.
Proof.
  intros Hzp Hv HB Hup. pose proof one_pos as HU.
  change (2 ^ 24) with 16777216 in *. change (2 ^ 23) with 8388608 in *.
  assert (Hn : 0 <= zp * (v * one)) by nia.
  unfold scaled. set (z := raw (zp * (v * one)) one).
  assert (Hk : 2 * z <= (2 * B + 1) * one).
  { apply raw_le_half_units; try assumption;
      [change (2 ^ 24) with 16777216; lia |].
    assert (2 * B * one <= 16777216 * one) by nia.
    nia. }
  assert (z / one < B + 1); [| lia].
  apply Z.div_lt_upper_bound; [exact HU | nia].
Qed.

(** C4, as stated, fails: a picture of 309 by 309 pixels in a box of 200
    by 200 comes out at 199 by 199.  The factor 200/309 is rounded down
    to single precision, the product with 309 rounds to the single just
    below 200, and the conversion truncates.  In exact arithmetic
    [s = min (W/w, H/h)] gives 200 by 200. *)
Lemma scale_format_one_pixel_short :
  scale_format (Format.mk 309 309) 200 200 = Some (Format.mk 199 199) /\
  spec_scale 309 309 200 200 = (200, 200) /\
  scale_format (Format.mk 309 309) 200 200
  <> Some (Format.mk (fst (spec_scale 309 309 200 200))
                     (snd (spec_scale 309 309 200 200))).
Proof.
  split; [vm_compute; reflexivity |].
  split; [vm_compute; reflexivity |].
  vm_compute. discriminate.
Qed.

(** The scaler on the example of the spec: 800 by 600 in 200 by 200. *)
Example scale_format_800_600 :
  scale_format (Format.mk 800 600) 200 200 = Some (Format.mk 200 150).
Proof. vm_compute. reflexivity. Qed.

(** C4, amended: for a picture with sides below [2^23] pixels, a size
    within the box is returned unchanged; otherwise both sides are
    multiplied by one factor, the smaller of the two ratios computed in
    single precision, and truncated: the result is within the box, not
    larger than the picture, and each side is the exact truncated value
    of the spec give or take one pixel. *)
Theorem scale_format_bounds w h W H :
  1 <= w < 2 ^ 23 -> 1 <= h < 2 ^ 23 ->
  0 <= W < 2 ^ 32 -> 0 <= H < 2 ^ 32 ->
  (w <= W /\ h <= H ->
   scale_format (Format.mk w h) W H = Some (Format.mk w h)) /\
  (W < w \/ H < h ->
   exists prop new_width new_height,
     prop = F32.min (div (of_u32 W) (of_u32 w)) (div (of_u32 H) (of_u32 h)) /\
     to_u32 (mul prop (of_u32 w)) = Some new_width /\
     to_u32 (mul prop (of_u32 h)) = Some new_height /\
     scale_format (Format.mk w h) W H = Some (Format.mk new_width new_height) /\
     0 <= new_width <= Z.min w W /\
     0 <= new_height <= Z.min h H /\
     Z.abs (new_width - fst (spec_scale w h W H)) <= 1 /\
     Z.abs (new_height - snd (spec_scale w h W H)) <= 1).
Proof.
  intros Hw Hh HW HH. split.
  - intros [HwW HhH]. unfold scale_format. simpl.
    destruct (Z.ltb_spec W w); [lia |].
    destruct (Z.ltb_spec H h); [lia |]. reflexivity.
  - intros Hexceeds.
    destruct (div_quot W w HW Hw) as (Hda & Hqa & _ & _ & Herra).
    destruct (div_quot H h HH Hh) as (Hdb & Hqb & _ & _ & Herrb).
    set (qa := quot W w) in *. set (qb := quot H h) in *.
    set (zp := if qa <? qb then qa else qb).
    assert (Hmin : F32.min (div (of_u32 W) (of_u32 w))
                           (div (of_u32 H) (of_u32 h)) = Fin zp).
    { rewrite Hda, Hdb. unfold F32.min, lt, zp.
      destruct (qa <? qb); reflexivity. }
    assert (Hzp : (zp = qa \/ zp = qb) /\ zp <= qa /\ zp <= qb).
    { unfold zp. destruct (Z.ltb_spec qa qb); lia. }
    destruct Hzp as (Hzp & Hzpa & Hzpb).
    assert (Hcond : (W <? w) || (H <? h) = true).
    { destruct Hexceeds as [Hx | Hx]; apply orb_true_iff;
        [left | right]; apply Z.ltb_lt; exact Hx. }
    change (2 ^ 23) with 8388608 in *.
    assert (Hgoal : forall zp', zp' = zp ->
              0 <= zp <= one ->
              scaled zp w <= W -> scaled zp h <= H ->
              Z.abs (scaled zp w - fst (spec_scale w h W H)) <= 1 ->
              Z.abs (scaled zp h - snd (spec_scale w h W H)) <= 1 ->
              exists prop new_width new_height,
                prop = F32.min (div (of_u32 W) (of_u32 w))
                               (div (of_u32 H) (of_u32 h)) /\
                to_u32 (mul prop (of_u32 w)) = Some new_width /\
                to_u32 (mul prop (of_u32 h)) = Some new_height /\
                scale_format (Format.mk w h) W H
                = Some (Format.mk new_width new_height) /\
                0 <= new_width <= Z.min w W /\
                0 <= new_height <= Z.min h H /\
                Z.abs (new_width - fst (spec_scale w h W H)) <= 1 /\
                Z.abs (new_height - snd (spec_scale w h W H)) <= 1).
    { intros _ _ Hzp01 HbW HbH HnW HnH.
      destruct (mul_scaled zp w Hzp01 ltac:(change (2 ^ 23) with 8388608; lia))
        as (Hmw & Hsw).
      destruct (mul_scaled zp h Hzp01 ltac:(change (2 ^ 23) with 8388608; lia))
        as (Hmh & Hsh).
      exists (Fin zp), (scaled zp w), (scaled zp h).
      split; [symmetry; exact Hmin |].
      split; [exact Hmw |]. split; [exact Hmh |].
      split.
      { unfold scale_format. cbn [Format.width Format.height].
        rewrite Hcond, Hmin, Hmw, Hmh. reflexivity. }
      repeat split; try lia; assumption. }
    apply (Hgoal zp eq_refl); clear Hgoal;
      unfold spec_scale; rewrite ?Hcond;
      destruct (Z.leb_spec (W * h) (H * w)) as [Hprim | Hprim]; simpl fst; simpl snd.
    all: try (assert (HWw : W < w) by nia;
              destruct (prop_bounds W w H h zp HW HH
                          ltac:(change (2 ^ 23) with 8388608; lia)
                          ltac:(change (2 ^ 23) with 8388608; lia)
                          HWw Hprim Hzp Hzpa Hzpb) as (Hz01 & Hup & Hlo)).
    all: try (assert (HHh : H < h) by nia;
              destruct (prop_bounds H h W w zp HH HW
                          ltac:(change (2 ^ 23) with 8388608; lia)
                          ltac:(change (2 ^ 23) with 8388608; lia)
                          HHh ltac:(lia) ltac:(tauto) Hzpb Hzpa)
                as (Hz01 & Hup & Hlo)).
    all: try exact Hz01.
    + (* width within the box, width is the tighter side *)
      apply scaled_in_box; try assumption; lia.
    + (* width within the box, height is the tighter side *)
      destruct (Z_le_gt_dec w W) as [Hfit | Hexc].
      * destruct (mul_scaled zp w Hz01 ltac:(change (2 ^ 23) with 8388608; lia)).
        lia.
      * apply scaled_in_box; try assumption; try lia.
        specialize (Herra ltac:(lia)).
        change (2 ^ 24) with 16777216 in *. nia.
    + (* height within the box, width is the tighter side *)
      destruct (Z_le_gt_dec h H) as [Hfit | Hexc].
      * destruct (mul_scaled zp h Hz01 ltac:(change (2 ^ 23) with 8388608; lia)).
        lia.
      * apply scaled_in_box; try assumption; try lia.
        specialize (Herrb ltac:(lia)).
        change (2 ^ 24) with 16777216 in *. nia.
    + apply scaled_in_box; try assumption; lia.
    + pose proof (scaled_near zp w W w Hz01 Hup Hlo ltac:(lia)
                    ltac:(change (2 ^ 23) with 8388608; lia)
                    ltac:(change (2 ^ 23) with 8388608; lia)). lia.
    + pose proof (scaled_near zp w H h Hz01 Hup Hlo ltac:(lia)
                    ltac:(change (2 ^ 23) with 8388608; lia)
                    ltac:(change (2 ^ 23) with 8388608; lia)). lia.
    + pose proof (scaled_near zp h W w Hz01 Hup Hlo ltac:(lia)
                    ltac:(change (2 ^ 23) with 8388608; lia)
                    ltac:(change (2 ^ 23) with 8388608; lia)). lia.
    + pose proof (scaled_near zp h H h Hz01 Hup Hlo ltac:(lia)
                    ltac:(change (2 ^ 23) with 8388608; lia)
                    ltac:(change (2 ^ 23) with 8388608; lia)). lia.
Qed.

(** The amended C4 on the picture of the counterexample. *)
Lemma scale_format_bounds_witness :
  exists prop new_width new_height,
    prop = F32.min (div (of_u32 200) (of_u32 309))
                   (div (of_u32 200) (of_u32 309)) /\
    to_u32 (mul prop (of_u32 309)) = Some new_width /\
    to_u32 (mul prop (of_u32 309)) = Some new_height /\
    scale_format (Format.mk 309 309) 200 200
    = Some (Format.mk new_width new_height) /\
    0 <= new_width <= Z.min 309 200 /\
    0 <= new_height <= Z.min 309 200 /\
    Z.abs (new_width - fst (spec_scale 309 309 200 200)) <= 1 /\
    Z.abs (new_height - snd (spec_scale 309 309 200 200)) <= 1.
Proof.
  apply (proj2 (scale_format_bounds 309 309 200 200
                  ltac:(lia) ltac:(lia) ltac:(lia) ltac:(lia))).
  left. lia.
Defined.

End Scaler.

(** ** The cursor of the query row *)

Module Cursor.

Lemma i32_u32 z : i32 (u32 z) = i32 z.
Proof.
  unfold i32, u32. rewrite Z.mod_mod by (rewrite modulus_eq; lia). reflexivity.
Qed.


Lemma u32_add_u32_l a b : u32 (u32 a + b) = u32 (a + b).
Proof. unfold u32. apply Z.add_mod_idemp_l. rewrite modulus_eq. lia. Qed.



Lemma i32_add_u32_l a b : i32 (u32 a + b) = i32 (a + b).
Proof. rewrite <- i32_u32, u32_add_u32_l, i32_u32. reflexivity. Qed.

(** [place_cursor] in terms of the origin and of the cursor before the
    clamp. *)
Lemma place_cursor_eq width offset_x cursor_advance extents :
  place_cursor width offset_x cursor_advance extents
  = let origin := text_origin width offset_x extents in
    let raw := cursor_before_clamp width offset_x cursor_advance extents in
    if raw <? 0 then (u32 (origin - u32 (i32 (raw - 3))), 0) else (origin, raw).
Proof. reflexivity. Qed.




End Cursor.

(** ** The layout loops *)

Module Layout.

Section Loops.

Variable settings : Settings.t.
Variable text_extents : Font.t -> string -> Extents.t.
Variable parse_result_line : Font.t -> string -> Z -> Draw.t * option string.
Variable wordexp : string -> option (list string).
Variable access : string -> bool.
Variable png_size : string -> Z * Z.

Local Abbreviation do_text := (draw_text settings text_extents).
Local Abbreviation do_image := (draw_image wordexp access png_size).
Local Abbreviation line_switch :=
  (line_dispatch settings text_extents wordexp access png_size).
Local Abbreviation desc_switch :=
  (desc_dispatch settings text_extents wordexp access png_size).
Local Abbreviation line_loop :=
  (draw_line_loop settings text_extents parse_result_line wordexp access png_size).
Local Abbreviation desc_loop :=
  (draw_desc_loop settings text_extents parse_result_line wordexp access png_size).

Lemma emit_all_run l cr : emit_all l cr = Done tt (record_ops cr l).
Proof.
  revert cr. induction l as [| op l IH]; intros cr.
  - unfold record_ops. simpl. rewrite app_nil_r. destruct cr; reflexivity.
  - simpl. unfold bind, emit. rewrite IH. unfold record_ops. simpl.
    rewrite <- app_assoc. reflexivity.
Qed.

(** draw_text always returns: it measures with the font of the context,
    makes its five calls and leaves its own font. *)
Lemma draw_text_run text offset foreground weight cr :
  do_text text offset foreground weight cr
  = Done (u32 (Extents.x_advance
                 (match text with
                  | Some s => text_extents (Cairo.font cr) s
                  | None => Extents.mk 0 0
                  end)))
         (Cairo.mk (draw_text_font settings weight)
                   (Cairo.ops cr
                    ++ draw_text_ops settings text offset foreground weight)).
Proof.
  unfold draw_text, cairo_text_extents, bind, get_font, ret, emit,
    cairo_select_font_face, cairo_set_font_size, draw_text_ops, draw_text_font.
  simpl. rewrite <- !app_assoc. reflexivity.
Qed.

(** draw_image on a file that cannot be opened: size zero, nothing drawn,
    no fault. *)
Lemma draw_image_missing name offset win_size_x win_size_y cr :
  image_missing wordexp access name ->
  do_image (Some name) offset win_size_x win_size_y cr
  = Done (Format.mk 0 0) (record_ops cr (missing_image_ops wordexp name)).
Proof.
  unfold image_missing, missing_image_ops, draw_image.
  destruct (expand_file wordexp name) as [expanded diag]. simpl fst. simpl snd.
  intros Hmissing. unfold bind. rewrite emit_all_run.
  destruct expanded as [path |].
  - rewrite Hmissing. unfold emit, ret, record_ops. simpl.
    rewrite <- app_assoc. reflexivity.
  - unfold emit, ret, record_ops. simpl. rewrite <- app_assoc. reflexivity.
Qed.

(** One turn of the loop of draw_line. *)
Lemma draw_line_loop_step fuel s offset foreground cr :
  s <> EmptyString ->
  line_loop (S fuel) (Some s) offset foreground cr
  = let '(d, c') :=
      parse_result_line (Cairo.font cr) s
        (u32 (Settings.width settings - Offset.x offset)) in
    match Draw.data d with
    | None => Done offset cr
    | Some _ =>
        match c' with
        | None => Fault cr
        | Some _ =>
            bind (line_switch d offset foreground)
                 (fun offset' => line_loop fuel c' offset' foreground) cr
        end
    end.
Proof.
  intros Hs. destruct s as [| ch s']; [contradiction |].
  simpl. unfold bind at 1. unfold get_font.
  destruct (parse_result_line _ _ _) as [d c'].
  destruct (Draw.data d); [| reflexivity].
  destruct c'; reflexivity.
Qed.

(** One turn of the loop of draw_desc. *)
Lemma draw_desc_loop_step fuel gl s offset foreground cr :
  s <> EmptyString ->
  desc_loop (S fuel) gl (Some s) offset foreground cr
  = let '(d, c') :=
      parse_result_line (Cairo.font cr) s
        (u32 (u32 (Settings.desc_size settings + Settings.width settings)
              - Offset.x offset)) in
    match c' with
    | None => Fault cr
    | Some _ =>
        bind (desc_switch gl d offset foreground)
             (fun offset' =>
                desc_loop fuel gl c' (desc_wrap settings gl offset')
                  foreground) cr
    end.
Proof.
  intros Hs. destruct s as [| ch s']; [contradiction |].
  simpl. unfold bind at 1. unfold get_font.
  destruct (parse_result_line _ _ _) as [d c'].
  destruct c'; reflexivity.
Qed.

(** draw_image on a file that opens: the picture is scaled to the box
    and put at [(offset.x, offset.image_y)]. *)
Lemma draw_image_loaded name path drawn offset win_size_x win_size_y cr :
  fst (expand_file wordexp name) = Some path ->
  access path = true ->
  scale_format (natural_format png_size path) win_size_x win_size_y
  = Some drawn ->
  do_image (Some name) offset win_size_x win_size_y cr
  = Done drawn
      (record_ops cr
         (snd (expand_file wordexp name)
          ++ loaded_image_ops path (natural_format png_size path) drawn
               offset win_size_x win_size_y)).
Proof.
  unfold draw_image, natural_format, loaded_image_ops.
  destruct (expand_file wordexp name) as [expanded diag]. simpl fst. simpl snd.
  intros -> Hacc Hscale. unfold bind. rewrite emit_all_run, Hacc, Hscale.
  cbn [Format.width Format.height].
  destruct ((win_size_x <? u32 (fst (png_size path)))
            || (win_size_y <? u32 (snd (png_size path))));
    unfold emit, ret, record_ops; simpl; rewrite <- !app_assoc; reflexivity.
Qed.

(** A file that opens but holds no picture: cairo hands back a surface of
    size zero; draw_image returns that size and draws nothing visible. *)
Lemma draw_image_undecodable name path offset win_size_x win_size_y cr :
  fst (expand_file wordexp name) = Some path ->
  access path = true ->
  png_size path = (0, 0) ->
  0 <= win_size_x -> 0 <= win_size_y ->
  do_image (Some name) offset win_size_x win_size_y cr
  = Done (Format.mk 0 0)
      (record_ops cr
         (snd (expand_file wordexp name)
          ++ [SetSourceSurface path (Offset.x offset) (Offset.image_y offset);
              MaskSurface path (Offset.x offset) (Offset.image_y offset)])).
Proof.
  intros Hpath Hacc Hsize Hx Hy.
  assert (Hnat : natural_format png_size path = Format.mk 0 0).
  { unfold natural_format. rewrite Hsize. reflexivity. }
  assert (Hfit : (win_size_x <? 0) || (win_size_y <? 0) = false).
  { apply orb_false_iff. split; apply Z.ltb_ge; assumption. }
  rewrite (draw_image_loaded name path (Format.mk 0 0)); try assumption.
  - unfold loaded_image_ops. rewrite Hnat. cbn [Format.width Format.height].
    rewrite Hfit. reflexivity.
  - rewrite Hnat. unfold scale_format. cbn [Format.width Format.height].
    rewrite Hfit. reflexivity.
Qed.


(** C10: on a token without data the loop of draw_line stops before any
    drawing routine is called, whatever the type of the token.  The loop
    of draw_desc has no such test: an image token reaches draw_image,
    which faults on the [NULL] file name; a text token reaches draw_text,
    which shows a [NULL] text; and the loop goes on. *)
Theorem null_data_token fuel gl s d c' offset foreground cr :
  s <> EmptyString ->
  Draw.data d = None ->
  (parse_result_line (Cairo.font cr) s
     (u32 (Settings.width settings - Offset.x offset)) = (d, c') ->
   line_loop (S fuel) (Some s) offset foreground cr = Done offset cr) /\
  (forall rest,
     parse_result_line (Cairo.font cr) s
       (u32 (u32 (Settings.desc_size settings + Settings.width settings)
             - Offset.x offset)) = (d, Some rest) ->
     match Draw.type d with
     | DRAW_IMAGE =>
         do_image None offset (Settings.desc_size settings)
           (u32 (desc_height_of settings gl - Offset.image_y offset)) cr
         = Fault cr /\
         desc_switch gl d offset foreground cr = Fault cr /\
         desc_loop (S fuel) gl (Some s) offset foreground cr = Fault cr
     | NEW_LINE =>
         desc_loop (S fuel) gl (Some s) offset foreground cr
         = desc_loop fuel gl (Some rest)
             (desc_wrap settings gl
                (Offset.mk (Settings.width settings)
                   (u32 (Offset.y offset + Settings.font_size settings))
                   (u32 (Offset.image_y offset + Settings.font_size settings))))
             foreground cr
     | BOLD =>
         desc_loop (S fuel) gl (Some s) offset foreground cr
         = desc_loop fuel gl (Some rest)
             (desc_wrap settings gl
                (Offset.mk (u32 (Offset.x offset + 0))
                           (Offset.y offset) (Offset.image_y offset)))
             foreground
             (Cairo.mk (draw_text_font settings CAIRO_FONT_WEIGHT_BOLD)
                (Cairo.ops cr
                 ++ draw_text_ops settings None offset foreground
                      CAIRO_FONT_WEIGHT_BOLD))
     | DRAW_TEXT | OTHER _ =>
         desc_loop (S fuel) gl (Some s) offset foreground cr
         = desc_loop fuel gl (Some rest)
             (desc_wrap settings gl
                (Offset.mk (u32 (Offset.x offset + 0))
                           (Offset.y offset) (Offset.image_y offset)))
             foreground
             (Cairo.mk (draw_text_font settings CAIRO_FONT_WEIGHT_NORMAL)
                (Cairo.ops cr
                 ++ draw_text_ops settings None offset foreground
                      CAIRO_FONT_WEIGHT_NORMAL))
     end).
Proof.
  intros Hs Hdata. split.
  - intros Hparse. rewrite draw_line_loop_step by exact Hs.
    rewrite Hparse, Hdata. reflexivity.
  - intros rest Hparse.
    rewrite draw_desc_loop_step by exact Hs. rewrite Hparse.
    unfold bind, desc_dispatch. rewrite Hdata.
    destruct (Draw.type d); unfold bind;
      rewrite ?draw_text_run; try reflexivity.
    repeat split; reflexivity.
Qed.

End Loops.


(** C10 on the sample text ["?c"], whose first token has no data. *)
Lemma null_data_token_witness :
  draw_line_loop Sample.settings Sample.text_extents Sample.parse_result_line
    Sample.wordexp Sample.all_access Sample.png_size 1 (Some "?c"%string)
    (Offset.mk 5 29 20) Sample.white Sample.cr0
  = Done (Offset.mk 5 29 20) Sample.cr0 /\
  draw_desc_loop Sample.settings Sample.text_extents Sample.parse_result_line
    Sample.wordexp Sample.all_access Sample.png_size 1 Sample.gl
    (Some "?c"%string) (Offset.mk 102 9 0) Sample.white Sample.cr0
  = draw_desc_loop Sample.settings Sample.text_extents Sample.parse_result_line
      Sample.wordexp Sample.all_access Sample.png_size 0 Sample.gl
      (Some "c"%string)
      (desc_wrap Sample.settings Sample.gl (Offset.mk (u32 (102 + 0)) 9 0))
      Sample.white
      (Cairo.mk (draw_text_font Sample.settings CAIRO_FONT_WEIGHT_NORMAL)
         (Cairo.ops Sample.cr0
          ++ draw_text_ops Sample.settings None (Offset.mk 102 9 0)
               Sample.white CAIRO_FONT_WEIGHT_NORMAL)).
Proof.
  pose proof (null_data_token Sample.settings Sample.text_extents
                Sample.parse_result_line Sample.wordexp Sample.all_access
                Sample.png_size 0 Sample.gl "?c" (Draw.mk DRAW_TEXT None)
                (Some "c"%string) (Offset.mk 5 29 20) Sample.white Sample.cr0
                ltac:(discriminate) eq_refl) as [Hline _].
  pose proof (null_data_token Sample.settings Sample.text_extents
                Sample.parse_result_line Sample.wordexp Sample.all_access
                Sample.png_size 0 Sample.gl "?c" (Draw.mk DRAW_TEXT None)
                (Some "c"%string) (Offset.mk 102 9 0) Sample.white Sample.cr0
                ltac:(discriminate) eq_refl) as [_ Hdesc].
  split.
  - apply Hline. reflexivity.
  - apply (Hdesc "c"%string). reflexivity.
Defined.

End Layout.

(** ** The background of a row *)

Module Background.

Lemma no_fill_app l1 l2 : no_fill l1 -> no_fill l2 -> no_fill (l1 ++ l2).
Proof. unfold no_fill. intros H1 H2. apply Forall_app. split; assumption. Qed.

(** Without a [cairo_fill] in the calls, nothing is filled. *)
Lemma fills_before_render_no_fill l source path :
  no_fill l -> fills_before_render l source path = [].
Proof.
  unfold no_fill. intros H. revert source path.
  induction H as [| op l Hop _ IH]; intros source path; [reflexivity |].
  destruct op; simpl; try apply IH; try reflexivity. contradiction.
Qed.

Lemma adds_no_fill_ret {A : Type} (a : A) : adds_no_fill (ret a).
Proof.
  intros cr. exists []. split; [constructor |].
  simpl. rewrite app_nil_r. reflexivity.
Qed.

Lemma adds_no_fill_fault {A : Type} : adds_no_fill (@fault A).
Proof.
  intros cr. exists []. split; [constructor |].
  simpl. rewrite app_nil_r. reflexivity.
Qed.

Lemma adds_no_fill_timeout {A : Type} : adds_no_fill (@timeout A).
Proof.
  intros cr. exists []. split; [constructor |].
  simpl. rewrite app_nil_r. reflexivity.
Qed.

Lemma adds_no_fill_get_font : adds_no_fill get_font.
Proof.
  intros cr. exists []. split; [constructor |].
  simpl. rewrite app_nil_r. reflexivity.
Qed.

Lemma adds_no_fill_emit op : op <> Fill -> adds_no_fill (emit op).
Proof.
  intros Hop cr. exists [op]. split; [| reflexivity].
  constructor; [exact Hop | constructor].
Qed.

Lemma adds_no_fill_select_font_face name w :
  adds_no_fill (cairo_select_font_face name w).
Proof.
  intros cr. exists [SelectFontFace name w]. split; [| reflexivity].
  constructor; [discriminate | constructor].
Qed.

Lemma adds_no_fill_set_font_size sz : adds_no_fill (cairo_set_font_size sz).
Proof.
  intros cr. exists [SetFontSize sz]. split; [| reflexivity].
  constructor; [discriminate | constructor].
Qed.

Lemma adds_no_fill_bind {A B : Type} (m : draw A) (k : A -> draw B) :
  adds_no_fill m -> (forall a, adds_no_fill (k a)) -> adds_no_fill (bind m k).
Proof.
  intros Hm Hk cr. unfold bind.
  destruct (Hm cr) as (l1 & Hl1 & Hops1).
  destruct (m cr) as [a cr1 | cr1 | cr1]; simpl in Hops1.
  - destruct (Hk a cr1) as (l2 & Hl2 & Hops2).
    exists (l1 ++ l2). split; [apply no_fill_app; assumption |].
    rewrite Hops2, Hops1, app_assoc. reflexivity.
  - exists l1. split; assumption.
  - exists l1. split; assumption.
Qed.

Create HintDb no_fill.

#[local] Hint Resolve adds_no_fill_ret adds_no_fill_fault adds_no_fill_timeout
  adds_no_fill_get_font adds_no_fill_select_font_face
  adds_no_fill_set_font_size : no_fill.

Ltac no_fill_step :=
  first
    [ apply adds_no_fill_bind; [| intros ?]
    | apply adds_no_fill_emit; discriminate
    | solve [auto with no_fill] ].

Section Rows.

Variable settings : Settings.t.
Variable text_extents : Font.t -> string -> Extents.t.
Variable parse_result_line : Font.t -> string -> Z -> Draw.t * option string.
Variable wordexp : string -> option (list string).
Variable access : string -> bool.
Variable png_size : string -> Z * Z.

Lemma adds_no_fill_emit_all l : no_fill l -> adds_no_fill (emit_all l).
Proof.
  intros Hl cr. exists l. split; [exact Hl |].
  rewrite Layout.emit_all_run. reflexivity.
Qed.

Lemma adds_no_fill_draw_text text offset foreground weight :
  adds_no_fill (draw_text settings text_extents text offset foreground weight).
Proof.
  intros cr. rewrite Layout.draw_text_run.
  exists (draw_text_ops settings text offset foreground weight).
  split; [| reflexivity].
  unfold draw_text_ops. repeat constructor; discriminate.
Qed.

Lemma adds_no_fill_draw_image file offset win_size_x win_size_y :
  adds_no_fill (draw_image wordexp access png_size file offset
                  win_size_x win_size_y).
Proof.
  unfold draw_image. destruct file as [name |]; [| apply adds_no_fill_fault].
  unfold expand_file.
  destruct (wordexp name) as [words |].
  - apply adds_no_fill_bind; [apply adds_no_fill_emit_all; constructor |].
    intros _. destruct (hd_error words) as [path |].
    + destruct (access path).
      * destruct (scale_format _ _ _) as [new_format |];
          [| apply adds_no_fill_fault].
        destruct ((win_size_x <? _) || (win_size_y <? _));
          repeat no_fill_step.
      * repeat no_fill_step.
    + repeat no_fill_step.
  - apply adds_no_fill_bind.
    { apply adds_no_fill_emit_all. repeat constructor. discriminate. }
    intros _. destruct (access name).
    + destruct (scale_format _ _ _) as [new_format |];
        [| apply adds_no_fill_fault].
      destruct ((win_size_x <? _) || (win_size_y <? _));
        repeat no_fill_step.
    + repeat no_fill_step.
Qed.

Lemma adds_no_fill_line_dispatch d offset foreground :
  adds_no_fill (line_dispatch settings text_extents wordexp access png_size
                  d offset foreground).
Proof.
  unfold line_dispatch.
  destruct (Draw.type d);
    try (apply adds_no_fill_bind;
         [first [apply adds_no_fill_draw_text | apply adds_no_fill_draw_image]
         | intros ?; apply adds_no_fill_ret]).
  apply adds_no_fill_ret.
Qed.

Lemma adds_no_fill_draw_line_loop fuel c offset foreground :
  adds_no_fill (draw_line_loop settings text_extents parse_result_line wordexp
                  access png_size fuel c offset foreground).
Proof.
  revert c offset.
  induction fuel as [| fuel IH]; intros c offset;
    destruct c as [[| ch s] |]; simpl; try apply adds_no_fill_ret;
    try apply adds_no_fill_timeout.
  apply adds_no_fill_bind; [apply adds_no_fill_get_font |].
  intros f. destruct (parse_result_line f _ _) as [d c'].
  destruct (Draw.data d); [| apply adds_no_fill_ret].
  destruct c'; [| apply adds_no_fill_fault].
  apply adds_no_fill_bind; [apply adds_no_fill_line_dispatch |].
  intros offset'. apply IH.
Qed.

Lemma emit_then {A : Type} op (k : draw A) cr :
  bind (emit op) (fun _ => k) cr = k (record_ops cr [op]).
Proof. reflexivity. Qed.

Lemma record_ops_app cr l1 l2 :
  record_ops (record_ops cr l1) l2 = record_ops cr (l1 ++ l2).
Proof. unfold record_ops. simpl. rewrite <- app_assoc. reflexivity. Qed.

(** The calls of draw_line: the background, then the tokens, among which
    nothing is filled. *)
Lemma draw_line_ops fuel gl text line foreground background cr :
  exists l,
    no_fill l /\
    Cairo.ops (outcome_cr
                 (draw_line settings text_extents parse_result_line wordexp
                    access png_size fuel gl text line foreground background cr))
    = Cairo.ops cr
      ++ [MutexLock; SetSourceRgb background;
          Rectangle 0 (u32 (u32 (line * Settings.height settings) + 2))
            (Settings.width settings)
            (u32 ((line + 1) * Settings.height settings));
          StrokePreserve; Fill]
      ++ l.
Proof.
  unfold draw_line. rewrite !emit_then, !record_ops_app.
  cbn [app].
  assert (Hrest : adds_no_fill
            (bind (draw_line_loop settings text_extents parse_result_line
                     wordexp access png_size fuel text
                     (calculate_line_offset settings gl line) foreground)
                  (fun _ => emit MutexUnlock))).
  { apply adds_no_fill_bind; [apply adds_no_fill_draw_line_loop |].
    intros _. apply adds_no_fill_emit. discriminate. }
  match goal with
  | |- context [outcome_cr (?m ?c)] => destruct (Hrest c) as (l & Hl & Hops)
  end.
  exists l. split; [exact Hl |].
  rewrite Hops. unfold record_ops. simpl. rewrite <- app_assoc. reflexivity.
Qed.

(** The test of the model for a cursor off the text. *)
Lemma cursor_on_text_test text cursor :
  cursor_on_text text cursor ->
  (cursor <? 0) || (Z.of_nat (String.length text) <? cursor) = false.
Proof.
  unfold cursor_on_text. intros H. apply orb_false_iff.
  split; apply Z.ltb_ge; lia.
Qed.

(** draw_typed_line with its cursor on the text returns, after the calls
    of [typed_line_ops]; it leaves the face and the size of the
    settings. *)
Lemma draw_typed_line_run gl text line cursor foreground background cr :
  cursor_on_text text cursor ->
  draw_typed_line settings text_extents gl text line cursor foreground
    background cr
  = Done tt
      (Cairo.mk (draw_text_font settings CAIRO_FONT_WEIGHT_NORMAL)
         (Cairo.ops cr
          ++ typed_line_ops settings text_extents gl (Cairo.font cr) text line
               cursor foreground background)).
Proof.
  intros Hcursor.
  unfold draw_typed_line, typed_line_ops, typed_line_cursor, typed_line_font,
    calculate_line_offset.
  rewrite (cursor_on_text_test text cursor Hcursor).
  rewrite !emit_then, !record_ops_app. cbn [app].
  unfold bind at 1. unfold cairo_select_font_face at 1.
  unfold bind at 1. unfold cairo_text_extents at 1.
  unfold bind at 1. unfold get_font at 1. unfold ret at 1.
  unfold bind at 1. unfold cairo_text_extents at 1.
  unfold bind at 1. unfold get_font at 1. unfold ret at 1.
  cbn [Cairo.font Cairo.ops record_ops Offset.x Offset.y].
  destruct (place_cursor _ _ _ _) as [offset_x cursor_x].
  cbn [fst snd].
  unfold bind, emit, ret, cairo_set_font_size, draw_text_font.
  destruct (Settings.cursor_is_underline settings);
    cbn [Cairo.font Cairo.ops Font.face Font.weight Font.size];
    rewrite <- !app_assoc; reflexivity.
Qed.

(** With its cursor off the text draw_typed_line faults at line 95, after
    the background of the row, with the mutex held. *)
Lemma draw_typed_line_off_text gl text line cursor foreground background cr :
  ~ cursor_on_text text cursor ->
  draw_typed_line settings text_extents gl text line cursor foreground
    background cr
  = Fault
      (Cairo.mk (Font.mk (Settings.font_name settings) CAIRO_FONT_WEIGHT_NORMAL
                   (Font.size (Cairo.font cr)))
         (Cairo.ops cr
          ++ typed_line_background_ops settings line foreground background)).
Proof.
  intros Hcursor.
  assert (Htest : (cursor <? 0) || (Z.of_nat (String.length text) <? cursor)
                  = true).
  { unfold cursor_on_text in Hcursor. apply orb_true_iff.
    destruct (Z.ltb_spec cursor 0); [left; reflexivity | right].
    apply Z.ltb_lt. lia. }
  unfold draw_typed_line, typed_line_background_ops.
  rewrite Htest.
  rewrite !emit_then, !record_ops_app. cbn [app].
  unfold bind, cairo_select_font_face, fault, record_ops.
  cbn [Cairo.font Cairo.ops]. rewrite <- !app_assoc. reflexivity.
Qed.

(** C9, amended: before anything of a row is rendered exactly one fill
    is issued, in the background colour of the row, from [x = 0] over the
    row width.  For the query row it covers the row rectangle.  For a
    result row it starts 2 pixels below the top edge of the row. *)
Theorem row_background_fill :
  in_u32 (Settings.height settings) ->
  (forall gl text cursor cr,
     exists l,
       Cairo.ops (outcome_cr
                    (draw_query_text settings text_extents gl text cursor cr))
       = Cairo.ops cr ++ l /\
       fills_before_render l None []
       = [([row_rectangle settings 0], Some (Settings.query_bg settings))]) /\
  (forall fuel gl text line foreground background cr,
     exists l rect_height,
       Cairo.ops (outcome_cr
                    (draw_line settings text_extents parse_result_line wordexp
                       access png_size fuel gl text line foreground
                       background cr))
       = Cairo.ops cr ++ l /\
       fills_before_render l None []
       = [([(0, u32 (line * Settings.height settings + 2),
             Settings.width settings, rect_height)],
           Some background)]).
Proof.
  intros Hheight. split.
  - intros gl text cursor cr.
    unfold draw_query_text, bind.
    assert (Hcursor : cursor_on_text text cursor \/ ~ cursor_on_text text cursor).
    { unfold cursor_on_text.
      destruct (Z_le_gt_dec 0 cursor);
        destruct (Z_le_gt_dec cursor (Z.of_nat (String.length text)));
        [left | right | right | right]; lia. }
    destruct Hcursor as [Hon | Hoff].
    + rewrite (draw_typed_line_run _ _ _ _ _ _ _ Hon).
      eexists. split.
      { cbn [outcome_cr emit Cairo.ops]. rewrite <- app_assoc. reflexivity. }
      unfold typed_line_ops.
      rewrite Z.mul_0_l, Z.add_0_l, Z.mul_1_l, (u32_small _ Hheight).
      change (u32 0) with 0.
      unfold row_rectangle. rewrite Z.mul_0_l. reflexivity.
    + rewrite (draw_typed_line_off_text _ _ _ _ _ _ _ Hoff).
      eexists. split.
      { cbn [outcome_cr Cairo.ops]. reflexivity. }
      unfold typed_line_background_ops.
      rewrite Z.mul_0_l, Z.add_0_l, Z.mul_1_l, (u32_small _ Hheight).
      change (u32 0) with 0.
      unfold row_rectangle. rewrite Z.mul_0_l. reflexivity.
  - intros fuel gl text line foreground background cr.
    destruct (draw_line_ops fuel gl text line foreground background cr)
      as (l & Hl & Hops).
    eexists. exists (u32 ((line + 1) * Settings.height settings)).
    split; [exact Hops |].
    cbn [fills_before_render app].
    rewrite (fills_before_render_no_fill l _ _ Hl).
    rewrite Cursor.u32_add_u32_l. reflexivity.
Qed.

End Rows.

(** C9, as stated, fails for result rows: the fill of row 1 (20 pixels
    high, 100 wide) starts at [y = 22], not at the top edge 20, and is 40
    pixels high, not 20. *)
Lemma result_row_fill_is_not_the_row :
  let cr := outcome_cr
              (draw_line Sample.settings Sample.text_extents
                 Sample.parse_result_line Sample.wordexp Sample.all_access
                 Sample.png_size 10 Sample.gl (Some "ab"%string) 1
                 Sample.white Sample.black Sample.cr0) in
  fills_before_render (Cairo.ops cr) None []
  = [([(0, 22, 100, 40)], Some Sample.black)] /\
  row_rectangle Sample.settings 1 = (0, 20, 100, 20) /\
  fills_before_render (Cairo.ops cr) None []
  <> [([row_rectangle Sample.settings 1], Some Sample.black)].
Proof.
  cbv zeta. split; [vm_compute; reflexivity |].
  split; [vm_compute; reflexivity |].
  vm_compute. discriminate.
Qed.

(** The amended C9 on the sample configuration: the query row and result
    row 1. *)
Lemma row_background_fill_witness :
  (exists l,
     Cairo.ops (outcome_cr
                  (draw_query_text Sample.settings Sample.text_extents
                     Sample.gl "ab" 1 Sample.cr0))
     = Cairo.ops Sample.cr0 ++ l /\
     fills_before_render l None []
     = [([row_rectangle Sample.settings 0],
         Some (Settings.query_bg Sample.settings))]) /\
  (exists l rect_height,
     Cairo.ops (outcome_cr
                  (draw_line Sample.settings Sample.text_extents
                     Sample.parse_result_line Sample.wordexp Sample.all_access
                     Sample.png_size 10 Sample.gl (Some "ab"%string) 1
                     Sample.white Sample.black Sample.cr0))
     = Cairo.ops Sample.cr0 ++ l /\
     fills_before_render l None []
     = [([(0, u32 (1 * Settings.height Sample.settings + 2),
           Settings.width Sample.settings, rect_height)],
         Some Sample.black)]).
Proof.
  assert (Hheight : in_u32 (Settings.height Sample.settings)).
  { unfold in_u32. rewrite modulus_eq. simpl. lia. }
  pose proof (row_background_fill Sample.settings Sample.text_extents
                Sample.parse_result_line Sample.wordexp Sample.all_access
                Sample.png_size Hheight) as [Hquery Hrow].
  split.
  - apply Hquery.
  - apply Hrow.
Defined.

End Background.

(** ** The wrap of the description panel *)

Module Wrap.

(** The wrap fires exactly on the test of line 306, taken after the token
    was drawn; it leaves the offset alone otherwise. *)
Lemma desc_wrap_trigger settings gl offset :
  (desc_overflows settings offset = true <->
   u32 (Settings.width settings + Settings.desc_size settings)
   < u32 (Offset.x offset + Settings.font_size settings)) /\
  (desc_overflows settings offset = false ->
   desc_wrap settings gl offset = offset) /\
  (desc_overflows settings offset = true ->
   desc_wrap settings gl offset
   = Offset.mk (Settings.width settings)
       (u32 (Offset.y offset + Global.real_font_size gl))
       (u32 (Offset.image_y offset + Global.real_font_size gl))).
Proof.
  unfold desc_wrap, desc_overflows. split; [apply Z.ltb_lt |].
  split; intros ->; reflexivity.
Qed.

(** An explicit line break moves down by [settings.font_size]. *)
Lemma line_break_advance settings text_extents wordexp access png_size
  gl d offset foreground cr :
  Draw.type d = NEW_LINE ->
  desc_dispatch settings text_extents wordexp access png_size gl d offset
    foreground cr
  = Done (Offset.mk (Settings.width settings)
            (u32 (Offset.y offset + Settings.font_size settings))
            (u32 (Offset.image_y offset + Settings.font_size settings))) cr.
Proof. intros Htype. unfold desc_dispatch. rewrite Htype. reflexivity. Qed.

(** C5 at a failing input: a font size of 12 with a real font size of 9.
    At the offset [(155, 9, 0)] of the sample panel the wrap fires and
    moves [y] and [image_y] down by 9, where a line break at the same
    offset moves them down by 12.  In whole descriptions: the seventh
    letter of ["abcdefg"] is drawn on the wrapped line at [y = 18], the
    letter after the break of ["a|g"] at [y = 21]. *)
Theorem wrap_is_not_a_line_break :
  Settings.font_size Sample.settings = 12 /\
  Global.real_font_size Sample.gl = 9 /\
  desc_overflows Sample.settings (Offset.mk 155 9 0) = true /\
  desc_wrap Sample.settings Sample.gl (Offset.mk 155 9 0)
  = Offset.mk 100 18 9 /\
  desc_dispatch Sample.settings Sample.text_extents Sample.wordexp
    Sample.all_access Sample.png_size Sample.gl
    (Draw.mk NEW_LINE (Some EmptyString)) (Offset.mk 155 9 0) Sample.white
    Sample.cr0
  = Done (Offset.mk 100 21 12) Sample.cr0 /\
  In (MoveTo 100 18)
     (Cairo.ops (outcome_cr
        (draw_desc Sample.settings Sample.text_extents
           Sample.parse_result_line Sample.wordexp Sample.all_access
           Sample.png_size 10 Sample.gl (Some "abcdefg"%string)
           Sample.white Sample.black Sample.cr0))) /\
  In (MoveTo 100 21)
     (Cairo.ops (outcome_cr
        (draw_desc Sample.settings Sample.text_extents
           Sample.parse_result_line Sample.wordexp Sample.all_access
           Sample.png_size 10 Sample.gl (Some "a|g"%string)
           Sample.white Sample.black Sample.cr0))).
Proof.
  split; [reflexivity |]. split; [reflexivity |].
  split; [vm_compute; reflexivity |].
  split; [vm_compute; reflexivity |].
  split; [vm_compute; reflexivity |].
  split; vm_compute; repeat (first [left; reflexivity | right]).
Qed.

End Wrap.

(** ** Pictures in the description panel *)

Module Panel.

Import F32 F32View F32Facts Int32Facts Scaler.


Section Tokens.

Variable settings : Settings.t.
Variable text_extents : Font.t -> string -> Extents.t.
Variable wordexp : string -> option (list string).
Variable access : string -> bool.
Variable png_size : string -> Z * Z.

Local Abbreviation desc_token :=
  (desc_dispatch settings text_extents wordexp access png_size).


End Tokens.



(** The scaler at work in the panel: the sample picture, 48 by 30 pixels,
    placed at [image_y = 100] has a box 20 pixels high left. *)
Example desc_image_scaled_sample :
  desc_dispatch Sample.settings Sample.text_extents Sample.wordexp
    Sample.all_access Sample.png_size Sample.gl
    (Draw.mk DRAW_IMAGE (Some "icon.png"%string)) (Offset.mk 102 109 100)
    Sample.white Sample.cr0
  = Done (Offset.mk 134 120 120)
      (record_ops Sample.cr0
         [ScaleSurface "icon.png" 48 30 32 20;
          SetSourceSurface "icon.png" 102 100;
          MaskSurface "icon.png" 102 100]).
Proof. vm_compute. reflexivity. Qed.

End Panel.

(** ** More on the viewport window *)

Module Window.

Import Viewport.

(** The clamp never raises the highlight. *)
Lemma clamp_highlight_le gl :
  Global.result_highlight (clamp_highlight gl) <= Global.result_highlight gl.
Proof.
  unfold clamp_highlight.
  destruct (Z.ltb_spec (u32 (Global.result_count gl - 1))
                       (Global.result_highlight gl)); simpl; lia.
Qed.

(** The window only writes the highlight and the offset. *)
Lemma viewport_window_frame gl max_results :
  let gl' := fst (viewport_window gl max_results) in
  Global.result_count gl' = Global.result_count gl /\
  Global.results gl' = Global.results gl /\
  Global.real_font_size gl' = Global.real_font_size gl /\
  Global.win_x_pos gl' = Global.win_x_pos gl /\
  Global.win_x_pos_with_desc gl' = Global.win_x_pos_with_desc gl /\
  Global.win_y_pos gl' = Global.win_y_pos gl /\
  Global.result_highlight gl' <= Global.result_highlight gl.
Proof.
  cbv zeta. pose proof (clamp_highlight_le gl) as Hle.
  unfold viewport_window, scroll_window, clamp_highlight in *.
  destruct (u32 (Global.result_count gl - 1) <? Global.result_highlight gl);
    cbn [Global.result_count Global.result_highlight Global.result_offset
         Global.set_result_highlight] in *;
    destruct (_ <? _); [| destruct (_ <? _) | | destruct (_ <? _)];
    simpl in *; repeat split; try reflexivity; exact Hle.
Qed.

(** X1: running the window again on the state it left changes nothing;
    the second run shows [min (result_count, max_results)] rows. *)
Theorem viewport_window_stable gl max_results :
  Global.wf gl ->
  0 < Global.result_count gl ->
  1 <= max_results ->
  Global.result_offset gl + c_min (Global.result_count gl) max_results < modulus ->
  let g1 := fst (viewport_window gl max_results) in
  viewport_window g1 max_results
  = (g1, c_min (Global.result_count gl) max_results).
Proof.
  intros Hwf Hpos Hmax Hsum g1.
  pose proof (viewport_window_cases gl max_results Hwf Hpos Hmax Hsum) as Hrun.
  cbv zeta in Hrun. fold g1 in Hrun.
  destruct Hrun as (Hm & Hmm & Hc1 & Hh1 & Hshape).
  destruct Hwf as (Hc & Hh & Ho). unfold in_u32 in *.
  assert (Hwin : 0 <= Global.result_offset g1 /\
                 Global.result_offset g1
                   + c_min (Global.result_count gl) max_results < modulus /\
                 Global.result_offset g1 <= Global.result_highlight g1
                 < Global.result_offset g1
                   + c_min (Global.result_count gl) max_results).
  { destruct Hshape as [Hd | [Hu | Hi]]; lia. }
  unfold viewport_window, clamp_highlight. rewrite Hc1.
  rewrite (u32_small (Global.result_count gl - 1)) by (unfold in_u32; lia).
  destruct (Z.ltb_spec (Global.result_count gl - 1) (Global.result_highlight g1));
    [lia |].
  unfold scroll_window. rewrite Hc1.
  rewrite (u32_small (Global.result_offset g1 + _)) by (unfold in_u32; lia).
  rewrite (u32_small (Global.result_highlight g1 + 1)) by (unfold in_u32; lia).
  destruct (Z.ltb_spec (Global.result_offset g1
                        + c_min (Global.result_count gl) max_results)
                       (Global.result_highlight g1 + 1)); [lia |].
  destruct (Z.ltb_spec (Global.result_highlight g1) (Global.result_offset g1));
    [lia | reflexivity].
Qed.

Lemma viewport_window_stable_witness :
  viewport_window (fst (viewport_window Sample.gl 3)) 3
  = (fst (viewport_window Sample.gl 3), c_min (Global.result_count Sample.gl) 3).
Proof.
  apply (viewport_window_stable Sample.gl 3).
  - unfold Global.wf, in_u32. rewrite modulus_eq. simpl. lia.
  - simpl. lia.
  - lia.
  - rewrite modulus_eq. reflexivity.
Defined.



(** Without that room the loop leaves the list: three results, ten
    visible rows and a stale offset 2 above the highlight 1 give the rows
    1, 2 and 3. *)
Example stale_offset_reads_past_the_list :
  viewport_window (Global.mk 9 3 1 2 10 20 30 []) 10
  = (Global.mk 9 3 1 1 10 20 30 [], 3).
Proof. vm_compute. reflexivity. Qed.

End Window.

(** ** The frame: state and rows *)

Module Rows.

Lemma bind_assoc {A B C : Type} (m : draw A) (f : A -> draw B)
  (g : B -> draw C) cr :
  bind (bind m f) g cr = bind m (fun a => bind (f a) g) cr.
Proof. unfold bind. destruct (m cr); reflexivity. Qed.

Lemma bind_ext {A B : Type} (m : draw A) (k1 k2 : A -> draw B) cr :
  (forall a cr', k1 a cr' = k2 a cr') -> bind m k1 cr = bind m k2 cr.
Proof. intros H. unfold bind. destruct (m cr); [apply H | |]; reflexivity. Qed.

Lemma rows_from_succ first line n :
  rows_from first line (S n)
  = (first, line) :: rows_from (first + 1) (line + 1) n.
Proof.
  unfold rows_from. cbn [seq map]. rewrite !Z.add_0_r. f_equal.
  rewrite <- seq_shift, map_map. apply map_ext. intros k.
  rewrite Nat2Z.inj_succ. f_equal; lia.
Qed.

Section Frame.

Variable settings : Settings.t.
Variable text_extents : Font.t -> string -> Extents.t.
Variable parse_result_line : Font.t -> string -> Z -> Draw.t * option string.
Variable wordexp : string -> option (list string).
Variable access : string -> bool.
Variable png_size : string -> Z * Z.

Local Abbreviation result_rows :=
  (draw_result_rows settings text_extents parse_result_line wordexp access
     png_size).
Local Abbreviation one_row :=
  (draw_row settings text_extents parse_result_line wordexp access png_size).
Local Abbreviation result_text :=
  (draw_result_text settings text_extents parse_result_line wordexp access
     png_size).

(** X3: when draw_result_text returns, the state it hands back is the one
    the window computed: the count, the list, the font size and the
    window positions are those it was given, and the highlight is not
    above the one it was given.  It returns only for a row height that is
    not zero. *)
Theorem draw_result_text_state fuel row_fuel gl results cr g cr' :
  result_text fuel row_fuel gl results cr = Done g cr' ->
  Settings.height settings <> 0 /\
  g = fst (viewport_window gl
             (max_results_of (Settings.max_height settings)
                             (Settings.height settings))) /\
  Global.result_count g = Global.result_count gl /\
  Global.results g = Global.results gl /\
  Global.real_font_size g = Global.real_font_size gl /\
  Global.win_x_pos g = Global.win_x_pos gl /\
  Global.win_x_pos_with_desc g = Global.win_x_pos_with_desc gl /\
  Global.win_y_pos g = Global.win_y_pos gl /\
  Global.result_highlight g <= Global.result_highlight gl.
Proof.
  unfold draw_result_text.
  destruct (Z.eqb_spec (Settings.height settings) 0) as [Hz | Hnz];
    [intros H; discriminate H |].
  set (max_results := max_results_of _ _).
  pose proof (Window.viewport_window_frame gl max_results) as Hframe.
  cbv zeta in Hframe.
  destruct (viewport_window gl max_results) as [gl' display_results].
  cbn [fst] in Hframe. unfold bind.
  destruct (draw_panel _ _ _ _ _ _ _ _ _ cr) as [[] cr1 | cr1 | cr1];
    try (intros H; discriminate H).
  destruct (draw_result_rows _ _ _ _ _ _ _ _ _ _ _ _ _ cr1)
    as [[] cr2 | cr2 | cr2]; try (intros H; discriminate H).
  unfold emit, ret. intros H. injection H as <- _.
  split; [exact Hnz |]. split; [reflexivity |]. exact Hframe.
Qed.

(** X4: started on a row index and on a line that stay below [2^31], with
    fuel for [n] turns, the loop of lines 361-367 draws the rows [first],
    ..., [first + n - 1] in this order on the lines [line], ...,
    [line + n - 1], each by draw_line, the highlighted one in the
    highlight colours; a fault or a row out of fuel ends both sides
    alike. *)
Theorem draw_result_rows_in_order n fuel row_fuel gl results first line cr :
  (n <= fuel)%nat ->
  0 <= first -> first + Z.of_nat n < half_modulus ->
  0 <= line -> line + Z.of_nat n < half_modulus ->
  result_rows fuel row_fuel gl results first line (first + Z.of_nat n) cr
  = for_each (one_row row_fuel gl results) (rows_from first line n) cr.
Proof.
  revert fuel first line cr.
  induction n as [| n IH]; intros fuel first line cr Hfuel Hf Hfn Hl Hln;
    unfold half_modulus in *; change (2 ^ 31) with 2147483648 in *.
  - rewrite Z.add_0_r.
    assert (Hu : u32 first = first)
      by (apply u32_small; unfold in_u32; rewrite modulus_eq; lia).
    destruct fuel; simpl; rewrite Hu, Z.ltb_irrefl; reflexivity.
  - destruct fuel as [| fuel]; [lia |].
    rewrite rows_from_succ. cbn [for_each draw_result_rows].
    rewrite Nat2Z.inj_succ in *.
    assert (Hu : u32 first = first)
      by (apply u32_small; unfold in_u32; rewrite modulus_eq; lia).
    assert (Hul : u32 line = line)
      by (apply u32_small; unfold in_u32; rewrite modulus_eq; lia).
    rewrite Hu, Hul.
    destruct (Z.ltb_spec first (first + Z.succ (Z.of_nat n))); [| lia].
    unfold draw_row at 1. cbn [fst snd]. rewrite bind_assoc.
    apply bind_ext. intros res cr1.
    apply bind_ext. intros _ cr2.
    rewrite (i32_small (first + 1))
      by (unfold half_modulus; change (2 ^ 31) with 2147483648; lia).
    rewrite (i32_small (line + 1))
      by (unfold half_modulus; change (2 ^ 31) with 2147483648; lia).
    replace (first + Z.succ (Z.of_nat n)) with (first + 1 + Z.of_nat n) by lia.
    apply IH; unfold half_modulus; change (2 ^ 31) with 2147483648; lia.
Qed.

End Frame.

Lemma draw_result_text_state_witness :
  Settings.height Sample.settings <> 0 /\
  Global.result_count (fst (viewport_window Sample.gl 4))
  = Global.result_count Sample.gl /\
  Global.result_highlight (fst (viewport_window Sample.gl 4))
  <= Global.result_highlight Sample.gl.
Proof.
  destruct (draw_result_text Sample.settings Sample.text_extents
              Sample.parse_result_line Sample.wordexp Sample.all_access
              Sample.png_size 10 10 Sample.gl (Global.results Sample.gl)
              Sample.cr0) as [g cr' | cr' | cr'] eqn:Hrun;
    try (vm_compute in Hrun; discriminate Hrun).
  pose proof (draw_result_text_state Sample.settings Sample.text_extents
                Sample.parse_result_line Sample.wordexp Sample.all_access
                Sample.png_size 10 10 Sample.gl (Global.results Sample.gl)
                Sample.cr0 g cr' Hrun)
    as (Hh & Hg & Hc & _ & _ & _ & _ & _ & Hhl).
  rewrite Hg in Hc, Hhl.
  split; [exact Hh |]. split; [exact Hc | exact Hhl].
Defined.

Lemma draw_result_rows_in_order_witness :
  draw_result_rows Sample.settings Sample.text_extents
    Sample.parse_result_line Sample.wordexp Sample.all_access Sample.png_size
    2 10 Sample.gl (Global.results Sample.gl) 1 1 (1 + Z.of_nat 2) Sample.cr0
  = for_each
      (draw_row Sample.settings Sample.text_extents Sample.parse_result_line
         Sample.wordexp Sample.all_access Sample.png_size 10 Sample.gl
         (Global.results Sample.gl))
      (rows_from 1 1 2) Sample.cr0.
Proof.
  apply (draw_result_rows_in_order Sample.settings Sample.text_extents
           Sample.parse_result_line Sample.wordexp Sample.all_access
           Sample.png_size 2 2 10 Sample.gl (Global.results Sample.gl) 1 1
           Sample.cr0).
  - lia.
  - lia.
  - unfold half_modulus. change (2 ^ 31) with 2147483648. simpl. lia.
  - lia.
  - unfold half_modulus. change (2 ^ 31) with 2147483648. simpl. lia.
Defined.

End Rows.

(** ** The layout loops, further *)

Module Flow.

Import F32 F32View F32Facts.

Lemma mul_scaled_some zp v :
  0 <= zp <= one -> 1 <= v < 2 ^ 23 ->
  exists n, to_u32 (mul (Fin zp) (of_u32 v)) = Some n.
Proof.
  intros Hzp Hv. exists (scaled zp v).
  apply (Scaler.mul_scaled zp v Hzp Hv).
Qed.

(** The scaler is defined on every well-formed picture: no conversion
    back to [uint32_t] is out of range. *)
Lemma scale_format_defined w h W H :
  0 <= w < 2 ^ 23 -> 0 <= h < 2 ^ 23 -> (w = 0 <-> h = 0) ->
  0 <= W < 2 ^ 32 -> 0 <= H < 2 ^ 32 ->
  exists drawn, scale_format (Format.mk w h) W H = Some drawn.
Proof.
  intros Hw Hh Hzero HW HH. unfold scale_format.
  cbn [Format.width Format.height].
  destruct ((W <? w) || (H <? h)) eqn:Hcond; [| eexists; reflexivity].
  assert (Hpos : 1 <= w /\ 1 <= h).
  { destruct (Z.eq_dec w 0) as [Hw0 | Hw0].
    - assert (Hh0 : h = 0) by (apply Hzero; exact Hw0). subst.
      apply orb_true_iff in Hcond. destruct Hcond as [Hc | Hc];
        apply Z.ltb_lt in Hc; lia.
    - assert (h <> 0) by (intros Hh0; apply Hw0, Hzero, Hh0). lia. }
  destruct (div_quot W w HW ltac:(lia)) as (Hda & Hqa & Hla & _).
  destruct (div_quot H h HH ltac:(lia)) as (Hdb & Hqb & Hlb & _).
  rewrite Hda, Hdb. unfold F32.min, lt.
  set (qa := quot W w) in *. set (qb := quot H h) in *.
  assert (Hzp : exists zp, (if qa <? qb then Fin qa else Fin qb) = Fin zp /\
                           0 <= zp <= one).
  { apply orb_true_iff in Hcond.
    destruct (Z.ltb_spec qa qb) as [Hlt | Hge]; eexists; (split; [reflexivity |]).
    - destruct Hcond as [Hc | Hc]; apply Z.ltb_lt in Hc.
      + specialize (Hla ltac:(lia)). lia.
      + specialize (Hlb ltac:(lia)). lia.
    - destruct Hcond as [Hc | Hc]; apply Z.ltb_lt in Hc.
      + specialize (Hla ltac:(lia)). lia.
      + specialize (Hlb ltac:(lia)). lia. }
  destruct Hzp as (zp & -> & Hzp).
  destruct (mul_scaled_some zp w Hzp ltac:(lia)) as [nw ->].
  destruct (mul_scaled_some zp h Hzp ltac:(lia)) as [nh ->].
  eexists. reflexivity.
Qed.

Lemma u32_lockstep a b k : u32 (u32 (a + k) - u32 (b + k)) = u32 (a - b).
Proof.
  unfold u32. rewrite Zminus_mod_idemp_l, Zminus_mod_idemp_r.
  f_equal. lia.
Qed.

Section Loops.

Variable settings : Settings.t.
Variable text_extents : Font.t -> string -> Extents.t.
Variable parse_result_line : Font.t -> string -> Z -> Draw.t * option string.
Variable wordexp : string -> option (list string).
Variable access : string -> bool.
Variable png_size : string -> Z * Z.

Local Abbreviation image := (draw_image wordexp access png_size).
Local Abbreviation row_switch :=
  (line_dispatch settings text_extents wordexp access png_size).
Local Abbreviation panel_switch :=
  (desc_dispatch settings text_extents wordexp access png_size).
Local Abbreviation row_loop :=
  (draw_line_loop settings text_extents parse_result_line wordexp access png_size).
Local Abbreviation panel_loop :=
  (draw_desc_loop settings text_extents parse_result_line wordexp access png_size).

(** draw_image returns on every named file when pictures are well
    formed. *)
Lemma draw_image_returns name offset win_size_x win_size_y cr :
  pictures_well_formed png_size ->
  in_u32 win_size_x -> in_u32 win_size_y ->
  exists format cr',
    image (Some name) offset win_size_x win_size_y cr = Done format cr'.
Proof.
  intros Hpng Hx Hy. unfold in_u32 in *. rewrite modulus_eq in *.
  destruct (fst (expand_file wordexp name)) as [path |] eqn:Hpath.
  - destruct (access path) eqn:Hacc.
    + destruct (Hpng path) as (Hw & Hh & Hzero).
      assert (Hnat : natural_format png_size path
                     = Format.mk (fst (png_size path)) (snd (png_size path))).
      { unfold natural_format.
        rewrite !u32_small
          by (unfold in_u32; rewrite modulus_eq;
              change (2 ^ 23) with 8388608 in *; lia).
        reflexivity. }
      destruct (scale_format_defined _ _ win_size_x win_size_y Hw Hh Hzero
                  ltac:(change (2 ^ 32) with 4294967296; lia)
                  ltac:(change (2 ^ 32) with 4294967296; lia))
        as [drawn Hdrawn].
      rewrite <- Hnat in Hdrawn.
      rewrite (Layout.draw_image_loaded wordexp access png_size name path drawn
                 offset win_size_x win_size_y cr Hpath Hacc Hdrawn).
      eexists. eexists. reflexivity.
    + rewrite Layout.draw_image_missing
        by (unfold image_missing; rewrite Hpath; exact Hacc).
      eexists. eexists. reflexivity.
  - rewrite Layout.draw_image_missing
      by (unfold image_missing; rewrite Hpath; exact I).
    eexists. eexists. reflexivity.
Qed.

(** What the switch of draw_line does to the offset. *)
Lemma line_dispatch_offset d offset foreground cr offset' cr' :
  in_u32 (Offset.x offset) ->
  row_switch d offset foreground cr = Done offset' cr' ->
  Offset.y offset' = Offset.y offset /\
  Offset.image_y offset' = Offset.image_y offset /\
  in_u32 (Offset.x offset').
Proof.
  intros Hx. unfold line_dispatch.
  destruct (Draw.type d); unfold bind;
    rewrite ?Layout.draw_text_run;
    try (destruct (draw_image _ _ _ _ _ _ _ cr) as [format cr1 | cr1 | cr1];
         try (intros H; discriminate H));
    unfold ret; intros H; injection H as <- _;
    cbn [Offset.x Offset.y Offset.image_y];
    refine (conj eq_refl (conj eq_refl _));
    first [apply u32_range | exact Hx].
Qed.

(** X5: the row loop never moves the offset vertically: whatever the
    tokens, a row that ends normally leaves [offset.y] and
    [offset.image_y] as they were, and [offset.x] a 32-bit value. *)
Theorem draw_line_loop_keeps_row fuel c offset foreground cr offset' cr' :
  in_u32 (Offset.x offset) ->
  row_loop fuel c offset foreground cr = Done offset' cr' ->
  Offset.y offset' = Offset.y offset /\
  Offset.image_y offset' = Offset.image_y offset /\
  in_u32 (Offset.x offset').
Proof.
  revert c offset cr.
  induction fuel as [| fuel IH]; intros c offset cr Hx;
    destruct c as [[| ch s] |];
    try (simpl; unfold ret; intros H; injection H as <- _;
         exact (conj eq_refl (conj eq_refl Hx)));
    try (simpl; intros H; discriminate H).
  rewrite Layout.draw_line_loop_step by discriminate.
  destruct (parse_result_line _ _ _) as [d c'].
  destruct (Draw.data d).
  - destruct c' as [rest |]; [| intros H; discriminate H].
    unfold bind.
    destruct (line_dispatch _ _ _ _ _ d offset foreground cr)
      as [offset1 cr1 | cr1 | cr1] eqn:Hd; try (intros H; discriminate H).
    destruct (line_dispatch_offset _ _ _ _ _ _ Hx Hd) as (Hy1 & Hi1 & Hx1).
    intros Hloop. destruct (IH _ _ _ Hx1 Hloop) as (Hy & Hi & Hx').
    refine (conj _ (conj _ Hx')); congruence.
  - intros H. injection H as <- _. exact (conj eq_refl (conj eq_refl Hx)).
Qed.

(** With a parser that consumes text and keeps its cursor on the text,
    well-formed pictures and a 32-bit row height, the row loop ends
    normally once it has fuel for every character left. *)
Lemma draw_line_loop_returns fuel c offset foreground cr :
  parser_consumes parse_result_line ->
  parser_keeps_cursor parse_result_line ->
  pictures_well_formed png_size ->
  in_u32 (Settings.height settings) ->
  (text_length c <= fuel)%nat ->
  exists offset' cr', row_loop fuel c offset foreground cr = Done offset' cr'.
Proof.
  intros Hconsumes Hkeeps Hpng Hheight.
  revert c offset cr.
  induction fuel as [| fuel IH]; intros c offset cr Hfuel;
    destruct c as [[| ch s] |];
    try (simpl; eexists; eexists; reflexivity);
    try (simpl in Hfuel; lia).
  rewrite Layout.draw_line_loop_step by discriminate.
  pose proof (Hconsumes (Cairo.font cr) (String ch s)
                (u32 (Settings.width settings - Offset.x offset))) as Hc.
  pose proof (Hkeeps (Cairo.font cr) (String ch s)
                (u32 (Settings.width settings - Offset.x offset))) as Hk.
  destruct (parse_result_line _ _ _) as [d c']. cbn [fst snd] in *.
  destruct (Draw.data d) as [text |] eqn:Hdata;
    [| eexists; eexists; reflexivity].
  destruct c' as [rest |];
    [| exfalso; apply Hk; [discriminate | discriminate | reflexivity]].
  specialize (Hc rest ltac:(discriminate) eq_refl).
  assert (Hswitch : exists offset1 cr1,
            row_switch d offset foreground cr = Done offset1 cr1).
  { unfold line_dispatch. rewrite Hdata.
    destruct (Draw.type d); unfold bind; rewrite ?Layout.draw_text_run;
      try (eexists; eexists; reflexivity).
    destruct (draw_image_returns text offset
                (u32 (Settings.width settings - Offset.x offset))
                (Settings.height settings) cr Hpng (u32_range _) Hheight)
      as (format & cr1 & ->).
    eexists. eexists. reflexivity. }
  destruct Hswitch as (offset1 & cr1 & Hswitch).
  unfold bind. rewrite Hswitch.
  apply IH. simpl in *. lia.
Qed.

(** What the switch of draw_desc does to the two heights of the
    offset. *)
Lemma desc_dispatch_lockstep gl d offset foreground cr offset' cr' :
  panel_switch gl d offset foreground cr = Done offset' cr' ->
  u32 (Offset.y offset' - Offset.image_y offset') = 0 \/
  u32 (Offset.y offset' - Offset.image_y offset')
  = u32 (Offset.y offset - Offset.image_y offset).
Proof.
  unfold desc_dispatch.
  destruct (Draw.type d); unfold bind;
    rewrite ?Layout.draw_text_run;
    try (destruct (draw_image _ _ _ _ _ _ _ cr) as [format cr1 | cr1 | cr1];
         try (intros H; discriminate H));
    unfold ret; intros H; injection H as <- _;
    cbn [Offset.y Offset.image_y].
  - right. reflexivity.
  - left. rewrite Z.sub_diag. reflexivity.
  - right. apply u32_lockstep.
  - right. reflexivity.
  - right. reflexivity.
Qed.

Lemma desc_wrap_lockstep gl offset :
  u32 (Offset.y (desc_wrap settings gl offset)
       - Offset.image_y (desc_wrap settings gl offset))
  = u32 (Offset.y offset - Offset.image_y offset).
Proof.
  unfold desc_wrap. destruct (desc_overflows settings offset);
    [apply u32_lockstep | reflexivity].
Qed.

(** X7: in the description the text baseline and the top of the next
    picture move in lockstep: after any tokens the difference
    [offset.y - offset.image_y] (as a 32-bit value) is the one the loop
    started with, or 0 once a picture was placed. *)
Theorem draw_desc_loop_lockstep fuel gl c offset foreground cr offset' cr' :
  panel_loop fuel gl c offset foreground cr = Done offset' cr' ->
  u32 (Offset.y offset' - Offset.image_y offset') = 0 \/
  u32 (Offset.y offset' - Offset.image_y offset')
  = u32 (Offset.y offset - Offset.image_y offset).
Proof.
  revert c offset cr.
  induction fuel as [| fuel IH]; intros c offset cr;
    destruct c as [[| ch s] |];
    try (simpl; unfold ret; intros H; injection H as <- _; right; reflexivity);
    try (simpl; intros H; discriminate H).
  rewrite Layout.draw_desc_loop_step by discriminate.
  destruct (parse_result_line _ _ _) as [d c'].
  destruct c' as [rest |]; [| intros H; discriminate H].
  unfold bind.
  destruct (desc_dispatch _ _ _ _ _ gl d offset foreground cr)
    as [offset1 cr1 | cr1 | cr1] eqn:Hd; try (intros H; discriminate H).
  intros Hloop. specialize (IH _ _ _ Hloop).
  rewrite desc_wrap_lockstep in IH.
  pose proof (desc_dispatch_lockstep _ _ _ _ _ _ _ Hd) as Hstep.
  destruct IH as [IH | IH]; [left; exact IH |].
  destruct Hstep as [Hstep | Hstep]; [left | right]; congruence.
Qed.

(** The same for the loop of the description, whose parser must in
    addition never leave its cursor at [NULL] and name a file in every
    image token. *)
Lemma draw_desc_loop_returns fuel gl c offset foreground cr :
  parser_consumes parse_result_line ->
  parser_total parse_result_line ->
  pictures_well_formed png_size ->
  in_u32 (Settings.desc_size settings) ->
  (text_length c <= fuel)%nat ->
  exists offset' cr',
    panel_loop fuel gl c offset foreground cr = Done offset' cr'.
Proof.
  intros Hconsumes Htotal Hpng Hsize.
  revert c offset cr.
  induction fuel as [| fuel IH]; intros c offset cr Hfuel;
    destruct c as [[| ch s] |];
    try (simpl; eexists; eexists; reflexivity);
    try (simpl in Hfuel; lia).
  rewrite Layout.draw_desc_loop_step by discriminate.
  set (budget := u32 (u32 (Settings.desc_size settings + Settings.width settings)
                      - Offset.x offset)).
  pose proof (Hconsumes (Cairo.font cr) (String ch s) budget) as Hc.
  destruct (Htotal (Cairo.font cr) (String ch s) budget ltac:(discriminate))
    as [Hcursor Himage].
  destruct (parse_result_line _ _ _) as [d c']. cbn [fst snd] in *.
  destruct c' as [rest |]; [| contradiction].
  specialize (Hc rest ltac:(discriminate) eq_refl).
  assert (Hswitch : exists offset1 cr1,
            panel_switch gl d offset foreground cr = Done offset1 cr1).
  { unfold desc_dispatch.
    destruct (Draw.type d); unfold bind; rewrite ?Layout.draw_text_run;
      try (eexists; eexists; reflexivity).
    destruct (Draw.data d) as [name |]; [| exfalso; apply Himage; reflexivity].
    destruct (draw_image_returns name offset (Settings.desc_size settings)
                (u32 (desc_height_of settings gl - Offset.image_y offset))
                cr Hpng Hsize (u32_range _))
      as (format & cr1 & ->).
    eexists. eexists. reflexivity. }
  destruct Hswitch as (offset1 & cr1 & Hswitch).
  unfold bind. rewrite Hswitch.
  apply IH. simpl in *. lia.
Qed.

(** X6: draw_line returns normally, its last call the release of the
    mutex, whenever the parser consumes text and keeps its cursor on the
    text, the pictures are well formed and the row height is a 32-bit
    value: no fault, and no more turns of the loop than characters in
    the row. *)
Theorem draw_line_returns fuel gl text line foreground background cr :
  parser_consumes parse_result_line ->
  parser_keeps_cursor parse_result_line ->
  pictures_well_formed png_size ->
  in_u32 (Settings.height settings) ->
  (text_length text <= fuel)%nat ->
  exists cr',
    draw_line settings text_extents parse_result_line wordexp access png_size
      fuel gl text line foreground background cr
    = Done tt (record_ops cr' [MutexUnlock]).
Proof.
  intros Hconsumes Hkeeps Hpng Hheight Hfuel.
  unfold draw_line. rewrite !Background.emit_then.
  unfold bind.
  match goal with
  | |- context [draw_line_loop _ _ _ _ _ _ ?g ?h ?i ?j ?k] =>
      destruct (draw_line_loop_returns g h i j k
                  Hconsumes Hkeeps Hpng Hheight Hfuel)
        as (offset' & cr' & Hloop)
  end.
  fold row_loop. rewrite Hloop. exists cr'. reflexivity.
Qed.

(** X8: draw_desc returns normally, its last call the release of the
    mutex, whenever the parser consumes text, never leaves its cursor at
    [NULL] and names a file in every image token, the pictures are well
    formed and the panel width is a 32-bit value. *)
Theorem draw_desc_returns fuel gl text foreground background cr :
  parser_consumes parse_result_line ->
  parser_total parse_result_line ->
  pictures_well_formed png_size ->
  in_u32 (Settings.desc_size settings) ->
  (text_length text <= fuel)%nat ->
  exists cr',
    draw_desc settings text_extents parse_result_line wordexp access png_size
      fuel gl text foreground background cr
    = Done tt (record_ops cr' [MutexUnlock]).
Proof.
  intros Hconsumes Htotal Hpng Hsize Hfuel.
  unfold draw_desc. rewrite !Background.emit_then.
  unfold bind.
  match goal with
  | |- context [draw_desc_loop _ _ _ _ _ _ ?g ?gl0 ?h ?i ?j ?k] =>
      destruct (draw_desc_loop_returns g gl0 h i j k
                  Hconsumes Htotal Hpng Hsize Hfuel)
        as (offset' & cr' & Hloop)
  end.
  fold panel_loop. rewrite Hloop. exists cr'. reflexivity.
Qed.

End Loops.

(** The sample parser and the sample pictures meet the assumptions. *)
Lemma sample_parser_consumes : parser_consumes Sample.parse_result_line.
Proof.
  intros f s max_width rest Hs. destruct s as [| ch s']; [contradiction |].
  unfold Sample.parse_result_line.
  repeat match goal with
         | |- context [Ascii.eqb ?a ?b] => destruct (Ascii.eqb a b)
         end;
    cbn [snd]; intros H; injection H as <-; simpl; lia.
Qed.

Lemma sample_parser_total :
  parser_total Sample.parse_result_line /\
  parser_keeps_cursor Sample.parse_result_line.
Proof.
  split.
  - intros f s max_width Hs. destruct s as [| ch s']; [contradiction |].
    unfold Sample.parse_result_line.
    repeat match goal with
           | |- context [Ascii.eqb ?a ?b] => destruct (Ascii.eqb a b)
           end;
      cbn [fst snd Draw.type Draw.data]; split; discriminate.
  - intros f s max_width Hs _. destruct s as [| ch s']; [contradiction |].
    unfold Sample.parse_result_line.
    repeat match goal with
           | |- context [Ascii.eqb ?a ?b] => destruct (Ascii.eqb a b)
           end;
      cbn [snd]; discriminate.
Qed.

Lemma sample_pictures_well_formed : pictures_well_formed Sample.png_size.
Proof.
  intros path. unfold Sample.png_size. cbn [fst snd].
  change (2 ^ 23) with 8388608. repeat split; lia.
Qed.

Lemma sample_sizes :
  in_u32 (Settings.height Sample.settings) /\
  in_u32 (Settings.desc_size Sample.settings) /\
  in_u32 5.
Proof. unfold in_u32. rewrite modulus_eq. simpl. lia. Qed.

Lemma draw_line_loop_keeps_row_witness :
  exists offset' cr',
    draw_line_loop Sample.settings Sample.text_extents
      Sample.parse_result_line Sample.wordexp Sample.all_access
      Sample.png_size 5 (Some "a#|b"%string) (Offset.mk 5 29 20) Sample.white
      Sample.cr0 = Done offset' cr' /\
    Offset.y offset' = 29 /\ Offset.image_y offset' = 20 /\
    in_u32 (Offset.x offset').
Proof.
  destruct (draw_line_loop Sample.settings Sample.text_extents
              Sample.parse_result_line Sample.wordexp Sample.all_access
              Sample.png_size 5 (Some "a#|b"%string) (Offset.mk 5 29 20)
              Sample.white Sample.cr0) as [offset' cr' | cr' | cr'] eqn:Hrun;
    try (vm_compute in Hrun; discriminate Hrun).
  exists offset', cr'. split; [reflexivity |].
  apply (draw_line_loop_keeps_row Sample.settings Sample.text_extents
           Sample.parse_result_line Sample.wordexp Sample.all_access
           Sample.png_size 5 (Some "a#|b"%string) (Offset.mk 5 29 20)
           Sample.white Sample.cr0 offset' cr').
  - apply sample_sizes.
  - exact Hrun.
Defined.

Lemma draw_line_returns_witness :
  exists cr',
    draw_line Sample.settings Sample.text_extents
      Sample.parse_result_line Sample.wordexp Sample.all_access
      Sample.png_size 4 Sample.gl (Some "a#|b"%string) 1 Sample.white
      Sample.black Sample.cr0
    = Done tt (record_ops cr' [MutexUnlock]).
Proof.
  apply (draw_line_returns Sample.settings Sample.text_extents
           Sample.parse_result_line Sample.wordexp Sample.all_access
           Sample.png_size 4 Sample.gl (Some "a#|b"%string)).
  - exact sample_parser_consumes.
  - apply sample_parser_total.
  - exact sample_pictures_well_formed.
  - apply sample_sizes.
  - simpl. lia.
Defined.

Lemma draw_desc_loop_lockstep_witness :
  exists offset' cr',
    draw_desc_loop Sample.settings Sample.text_extents
      Sample.parse_result_line Sample.wordexp Sample.all_access
      Sample.png_size 5 Sample.gl (Some "a|b"%string) (Offset.mk 102 9 0)
      Sample.white Sample.cr0 = Done offset' cr' /\
    (u32 (Offset.y offset' - Offset.image_y offset') = 0 \/
     u32 (Offset.y offset' - Offset.image_y offset') = u32 (9 - 0)).
Proof.
  destruct (draw_desc_loop Sample.settings Sample.text_extents
              Sample.parse_result_line Sample.wordexp Sample.all_access
              Sample.png_size 5 Sample.gl (Some "a|b"%string)
              (Offset.mk 102 9 0) Sample.white Sample.cr0)
    as [offset' cr' | cr' | cr'] eqn:Hrun;
    try (vm_compute in Hrun; discriminate Hrun).
  exists offset', cr'. split; [reflexivity |].
  apply (draw_desc_loop_lockstep Sample.settings Sample.text_extents
           Sample.parse_result_line Sample.wordexp Sample.all_access
           Sample.png_size 5 Sample.gl (Some "a|b"%string) (Offset.mk 102 9 0)
           Sample.white Sample.cr0 offset' cr' Hrun).
Defined.

Lemma draw_desc_returns_witness :
  exists cr',
    draw_desc Sample.settings Sample.text_extents
      Sample.parse_result_line Sample.wordexp Sample.all_access
      Sample.png_size 4 Sample.gl (Some "a#|b"%string) Sample.white
      Sample.black Sample.cr0
    = Done tt (record_ops cr' [MutexUnlock]).
Proof.
  apply (draw_desc_returns Sample.settings Sample.text_extents
           Sample.parse_result_line Sample.wordexp Sample.all_access
           Sample.png_size 4 Sample.gl (Some "a#|b"%string)).
  - exact sample_parser_consumes.
  - apply sample_parser_total.
  - exact sample_pictures_well_formed.
  - apply sample_sizes.
  - simpl. lia.
Defined.

End Flow.

(** ** The caret and the text of the query row *)

Module Caret.

Import Int32Facts Cursor.

Lemma half_modulus_eq : half_modulus = 2147483648.
Proof. reflexivity. Qed.

Lemma u32_shift z : exists k, u32 z = z + k * modulus.
Proof.
  exists (- (z / modulus)). unfold u32.
  pose proof (Z.div_mod z modulus) as H. rewrite modulus_eq in *. lia.
Qed.

Lemma i32_shift z : exists k, i32 z = z + k * modulus.
Proof.
  destruct (u32_shift z) as (k & Hk). unfold i32. fold (u32 z).
  destruct (u32 z <? half_modulus).
  - exists k. exact Hk.
  - exists (k - 1). lia.
Qed.

Lemma u32_of_shift z k : in_u32 z -> u32 (z + k * modulus) = z.
Proof.
  intros H. unfold u32. rewrite Z.mod_add by (rewrite modulus_eq; lia).
  apply Z.mod_small. exact H.
Qed.

Lemma i32_nonneg z : 0 <= i32 z -> i32 z = u32 z.
Proof.
  unfold i32. fold (u32 z). pose proof (u32_range z) as H. unfold in_u32 in H.
  destruct (Z.ltb_spec (u32 z) half_modulus); rewrite ?half_modulus_eq in *;
    rewrite ?modulus_eq in *; lia.
Qed.

(** X9: the caret of draw_typed_line stays with the text (lines 99-113).
    For an advance of the text before the cursor that fits [int32_t], the
    end of that text, the drawn origin plus the advance, is at the caret;
    when the sum of line 107 was negative and the caret went to 0, it is
    3 pixels right of the caret. *)
Theorem caret_follows_text width offset_x cursor_advance extents :
  0 <= cursor_advance < half_modulus ->
  let raw := cursor_before_clamp width offset_x cursor_advance extents in
  let placed := place_cursor width offset_x cursor_advance extents in
  u32 (fst placed + cursor_advance)
  = if raw <? 0 then 3 else snd placed.
Proof.
  intros Hadv raw placed. subst placed. rewrite place_cursor_eq.
  cbv zeta. fold raw.
  assert (Hraw : raw = i32 (cursor_advance
                            + text_origin width offset_x extents)).
  { unfold raw, cursor_before_clamp.
    rewrite (i32_small cursor_advance) by (pose proof half_modulus_eq; lia).
    apply i32_add_u32_l. }
  destruct (Z.ltb_spec raw 0) as [Hneg | Hpos]; cbn [fst snd].
  - rewrite u32_add_u32_l.
    destruct (u32_shift (i32 (raw - 3))) as (k0 & Hk0).
    destruct (i32_shift (raw - 3)) as (k1 & Hk1).
    destruct (i32_shift (cursor_advance + text_origin width offset_x extents))
      as (k2 & Hk2).
    rewrite <- Hraw in Hk2. rewrite Hk0, Hk1.
    replace (text_origin width offset_x extents
             - (raw - 3 + k1 * modulus + k0 * modulus) + cursor_advance)
      with (3 + (- k0 - k1 - k2) * modulus) by lia.
    apply u32_of_shift. unfold in_u32. rewrite modulus_eq. lia.
  - rewrite Hraw in *. rewrite (i32_nonneg _ Hpos). f_equal. lia.
Qed.

Lemma caret_follows_text_witness :
  u32 (fst (place_cursor 100 5 16 (Extents.mk 240 240)) + 16)
  = if cursor_before_clamp 100 5 16 (Extents.mk 240 240) <? 0
    then 3 else snd (place_cursor 100 5 16 (Extents.mk 240 240)).
Proof.
  apply (caret_follows_text 100 5 16 (Extents.mk 240 240)).
  rewrite half_modulus_eq. lia.
Defined.

(** The sample: a text of 240 pixels in a row of 100, the cursor after
    two characters: the sum of line 107 is negative, the caret goes to 0
    and the text to [x = -13], stored modulo [2^32]. *)
Example caret_sample :
  cursor_before_clamp 100 5 16 (Extents.mk 240 240) = -124 /\
  place_cursor 100 5 16 (Extents.mk 240 240) = (u32 (-13), 0).
Proof. split; vm_compute; reflexivity. Qed.

(** X10: a text no wider than the row, drawn from an origin and with an
    advance that fit [int32_t] together, is never moved: the origin stays
    the padding of the row and the caret is the origin plus the
    advance. *)
Theorem fitting_text_is_not_scrolled width offset_x cursor_advance extents :
  Extents.width extents <= width ->
  0 <= offset_x -> 0 <= cursor_advance ->
  offset_x + cursor_advance < half_modulus ->
  place_cursor width offset_x cursor_advance extents
  = (offset_x, offset_x + cursor_advance).
Proof.
  intros Hfit Hx Hadv Hsum. rewrite place_cursor_eq. cbv zeta.
  assert (Horigin : text_origin width offset_x extents = offset_x).
  { unfold text_origin.
    replace (width <? Extents.width extents) with false
      by (symmetry; apply Z.ltb_ge; exact Hfit).
    reflexivity. }
  assert (Hraw : cursor_before_clamp width offset_x cursor_advance extents
                 = offset_x + cursor_advance).
  { unfold cursor_before_clamp. rewrite Horigin.
    rewrite (i32_small cursor_advance) by (pose proof half_modulus_eq; lia).
    rewrite i32_add_u32_l.
    rewrite i32_small by (pose proof half_modulus_eq; lia). lia. }
  rewrite Hraw, Horigin.
  replace (offset_x + cursor_advance <? 0) with false
    by (symmetry; apply Z.ltb_ge; lia).
  reflexivity.
Qed.

Lemma fitting_text_is_not_scrolled_witness :
  place_cursor 100 5 16 (Extents.mk 24 24) = (5, 5 + 16).
Proof.
  apply (fitting_text_is_not_scrolled 100 5 16 (Extents.mk 24 24)).
  - simpl. lia.
  - lia.
  - lia.
  - unfold half_modulus. lia.
Defined.

End Caret.

(** ** Measuring and wrapping *)

Module Measure.

Import Int32Facts.

Section Tokens.

Variable settings : Settings.t.
Variable text_extents : Font.t -> string -> Extents.t.
Variable parse_result_line : Font.t -> string -> Z -> Draw.t * option string.
Variable wordexp : string -> option (list string).
Variable access : string -> bool.
Variable png_size : string -> Z * Z.

Local Abbreviation text_token := (draw_text settings text_extents).
Local Abbreviation row_token :=
  (line_dispatch settings text_extents wordexp access png_size).
Local Abbreviation overflows := (desc_overflows settings).
Local Abbreviation wrap := (desc_wrap settings).

(** draw_text on any context: the advance is that of the text in the
    font the context had before the call, and the context leaves with
    the font of the call. *)
Lemma draw_text_measures_first text offset foreground weight cr :
  text_token (Some text) offset foreground weight cr
  = Done (u32 (Extents.x_advance (text_extents (Cairo.font cr) text)))
      (Cairo.mk (draw_text_font settings weight)
         (Cairo.ops cr
          ++ draw_text_ops settings (Some text) offset foreground weight)).
Proof.
  destruct cr as [f ops]. destruct f as [name w size].
  unfold draw_text, cairo_text_extents, get_font, cairo_select_font_face,
    cairo_set_font_size, emit, bind, ret, draw_text_ops, draw_text_font.
  cbn. rewrite <- !app_assoc. reflexivity.
Qed.

(** X11: draw_text measures before it selects the face (lines 143-146),
    so in a row a bold token after a plain one moves the offset by the
    plain width of its text, and the plain token after it by its bold
    width. *)
Theorem bold_token_advances_by_plain_width t0 t1 t2 offset foreground cr :
  exists o1 o2 o3 cr',
    bind (row_token (Draw.mk DRAW_TEXT (Some t0)) offset foreground)
      (fun o1 =>
         bind (row_token (Draw.mk BOLD (Some t1)) o1 foreground)
           (fun o2 => row_token (Draw.mk DRAW_TEXT (Some t2)) o2 foreground))
      cr
    = Done o3 cr' /\
    o1 = Offset.mk
           (u32 (Offset.x offset
                 + u32 (Extents.x_advance (text_extents (Cairo.font cr) t0))))
           (Offset.y offset) (Offset.image_y offset) /\
    o2 = Offset.mk
           (u32 (Offset.x o1
                 + u32 (Extents.x_advance
                          (text_extents
                             (draw_text_font settings CAIRO_FONT_WEIGHT_NORMAL)
                             t1))))
           (Offset.y offset) (Offset.image_y offset) /\
    o3 = Offset.mk
           (u32 (Offset.x o2
                 + u32 (Extents.x_advance
                          (text_extents
                             (draw_text_font settings CAIRO_FONT_WEIGHT_BOLD)
                             t2))))
           (Offset.y offset) (Offset.image_y offset).
Proof.
  do 4 eexists.
  unfold line_dispatch. cbn [Draw.type Draw.data].
  unfold bind. rewrite draw_text_measures_first. unfold ret.
  rewrite draw_text_measures_first. cbn [Cairo.font].
  rewrite draw_text_measures_first. cbn [Cairo.font Offset.x Offset.y Offset.image_y].
  repeat split; reflexivity.
Qed.

(** After a wrap the test of line 306 compares the panel width with the
    font size. *)
Lemma desc_wrap_overflow gl offset :
  in_u32 (Settings.font_size settings) ->
  in_u32 (Settings.desc_size settings) ->
  0 <= Settings.width settings ->
  Settings.width settings + Settings.desc_size settings < modulus ->
  Settings.width settings + Settings.font_size settings < modulus ->
  overflows offset = true ->
  overflows (wrap gl offset)
  = (Settings.desc_size settings <? Settings.font_size settings).
Proof.
  intros Hfont Hsize Hwidth Hpanel Hrow Ho. unfold in_u32 in *.
  unfold desc_wrap. rewrite Ho.
  unfold desc_overflows. cbn [Offset.x].
  rewrite !u32_small by (unfold in_u32; lia).
  destruct (Z.ltb_spec (Settings.desc_size settings)
              (Settings.font_size settings));
    [apply Z.ltb_lt | apply Z.ltb_ge]; lia.
Qed.

(** X12: the wrap of the description (lines 306-311) settles in one step
    when the font size is at most the panel width: the offset it leaves
    does not overflow, so wrapping twice is wrapping once. *)
Theorem desc_wrap_settles gl offset :
  in_u32 (Settings.font_size settings) ->
  in_u32 (Settings.desc_size settings) ->
  0 <= Settings.width settings ->
  Settings.width settings + Settings.desc_size settings < modulus ->
  Settings.width settings + Settings.font_size settings < modulus ->
  Settings.font_size settings <= Settings.desc_size settings ->
  overflows (wrap gl offset) = false /\
  wrap gl (wrap gl offset) = wrap gl offset.
Proof.
  intros Hfont Hsize Hwidth Hpanel Hrow Hle.
  assert (Hsettled : overflows (wrap gl offset) = false).
  { destruct (overflows offset) eqn:Ho.
    - rewrite (desc_wrap_overflow gl offset Hfont Hsize Hwidth Hpanel Hrow Ho).
      apply Z.ltb_ge. exact Hle.
    - unfold desc_wrap. rewrite Ho. exact Ho. }
  split; [exact Hsettled |].
  unfold desc_wrap at 1. rewrite Hsettled. reflexivity.
Qed.

(** X13: with a font larger than the panel, an offset that wrapped
    overflows again: the wrap moved it down a line and back to
    [settings.width], where the test of line 306 still holds, so every
    further token of the description starts a line of its own. *)
Theorem desc_wrap_repeats gl offset :
  in_u32 (Settings.font_size settings) ->
  in_u32 (Settings.desc_size settings) ->
  0 <= Settings.width settings ->
  Settings.width settings + Settings.desc_size settings < modulus ->
  Settings.width settings + Settings.font_size settings < modulus ->
  Settings.desc_size settings < Settings.font_size settings ->
  overflows offset = true ->
  overflows (wrap gl offset) = true /\
  wrap gl (wrap gl offset)
  = Offset.mk (Settings.width settings)
      (u32 (u32 (Offset.y offset + Global.real_font_size gl)
            + Global.real_font_size gl))
      (u32 (u32 (Offset.image_y offset + Global.real_font_size gl)
            + Global.real_font_size gl)).
Proof.
  intros Hfont Hsize Hwidth Hpanel Hrow Hlt Ho.
  assert (Hagain : overflows (wrap gl offset) = true).
  { rewrite (desc_wrap_overflow gl offset Hfont Hsize Hwidth Hpanel Hrow Ho).
    apply Z.ltb_lt. exact Hlt. }
  split; [exact Hagain |].
  unfold desc_wrap at 1. rewrite Hagain.
  unfold desc_wrap. rewrite Ho. reflexivity.
Qed.

(** X14: a file that opens but holds no picture (cairo hands back a
    surface of size zero) costs a row nothing: the token is drawn as an
    empty mask, nothing is scaled, and the offset of the row stays where
    it was. *)
Theorem empty_picture_keeps_offset name path offset foreground cr :
  fst (expand_file wordexp name) = Some path ->
  access path = true ->
  png_size path = (0, 0) ->
  0 <= Settings.height settings ->
  in_u32 (Offset.x offset) ->
  row_token (Draw.mk DRAW_IMAGE (Some name)) offset foreground cr
  = Done offset
      (record_ops cr
         (snd (expand_file wordexp name)
          ++ [SetSourceSurface path (Offset.x offset) (Offset.image_y offset);
              MaskSurface path (Offset.x offset) (Offset.image_y offset)])).
Proof.
  intros Hpath Hacc Hsize Hheight Hx.
  unfold line_dispatch. cbn [Draw.type Draw.data]. unfold bind.
  rewrite (Layout.draw_image_undecodable wordexp access png_size
             name path); try assumption.
  - unfold ret. cbn [Format.width]. rewrite Z.add_0_r.
    rewrite (u32_small _ Hx). destruct offset; reflexivity.
  - apply u32_range.
Qed.

End Tokens.

Lemma desc_wrap_settles_witness :
  desc_overflows Sample.settings
    (desc_wrap Sample.settings Sample.gl (Offset.mk 155 9 0)) = false /\
  desc_wrap Sample.settings Sample.gl
    (desc_wrap Sample.settings Sample.gl (Offset.mk 155 9 0))
  = desc_wrap Sample.settings Sample.gl (Offset.mk 155 9 0).
Proof.
  apply (desc_wrap_settles Sample.settings Sample.gl (Offset.mk 155 9 0));
    unfold in_u32; rewrite ?modulus_eq; simpl; lia.
Defined.

Lemma desc_wrap_repeats_witness :
  desc_overflows Sample2.narrow_panel
    (desc_wrap Sample2.narrow_panel Sample.gl (Offset.mk 102 9 0)) = true /\
  desc_wrap Sample2.narrow_panel Sample.gl
    (desc_wrap Sample2.narrow_panel Sample.gl (Offset.mk 102 9 0))
  = Offset.mk 100 (u32 (u32 (9 + 9) + 9)) (u32 (u32 (0 + 9) + 9)).
Proof.
  apply (desc_wrap_repeats Sample2.narrow_panel Sample.gl (Offset.mk 102 9 0));
    unfold in_u32; rewrite ?modulus_eq; simpl; try lia.
  reflexivity.
Defined.

Lemma empty_picture_keeps_offset_witness :
  line_dispatch Sample.settings Sample.text_extents Sample.wordexp
    Sample.all_access Sample2.blank_png_size
    (Draw.mk DRAW_IMAGE (Some "icon.png"%string)) (Offset.mk 5 29 20)
    Sample.white Sample.cr0
  = Done (Offset.mk 5 29 20)
      (record_ops Sample.cr0
         (snd (expand_file Sample.wordexp "icon.png")
          ++ [SetSourceSurface "icon.png" 5 20; MaskSurface "icon.png" 5 20])).
Proof.
  apply (empty_picture_keeps_offset Sample.settings Sample.text_extents
           Sample.wordexp Sample.all_access Sample2.blank_png_size
           "icon.png" "icon.png" (Offset.mk 5 29 20) Sample.white Sample.cr0).
  - reflexivity.
  - reflexivity.
  - reflexivity.
  - simpl. lia.
  - unfold in_u32. rewrite modulus_eq. simpl. lia.
Defined.

End Measure.

(** ** A whole frame *)

Module Frame.

Import Int32Facts.



Section Redraw.

Variable settings : Settings.t.
Variable text_extents : Font.t -> string -> Extents.t.
Variable parse_result_line : Font.t -> string -> Z -> Draw.t * option string.
Variable wordexp : string -> option (list string).
Variable access : string -> bool.
Variable png_size : string -> Z * Z.

Hypothesis parser_consumes_text : parser_consumes parse_result_line.
Hypothesis parser_is_total : parser_total parse_result_line.
Hypothesis pictures_are_well_formed : pictures_well_formed png_size.
Hypothesis height_32 : in_u32 (Settings.height settings).
Hypothesis desc_size_32 : in_u32 (Settings.desc_size settings).

Local Abbreviation row :=
  (draw_line settings text_extents parse_result_line wordexp access png_size).
Local Abbreviation desc_panel :=
  (draw_desc settings text_extents parse_result_line wordexp access png_size).
Local Abbreviation rows :=
  (draw_result_rows settings text_extents parse_result_line wordexp access
     png_size).
Local Abbreviation panel :=
  (draw_panel settings text_extents parse_result_line wordexp access png_size).
Local Abbreviation result_text :=
  (draw_result_text settings text_extents parse_result_line wordexp access
     png_size).








End Redraw.



(** With the cursor of the query off its text the frame faults in
    draw_typed_line, before any result is drawn. *)
Example cursor_off_text_faults :
  redraw_all Sample.settings Sample.text_extents Sample.parse_result_line
    Sample.wordexp Sample.all_access Sample.png_size 10 10 Sample.gl
    "query" 6 Sample.cr0
  = Fault (record_ops Sample.cr0
             (typed_line_background_ops Sample.settings 0
                (Settings.query_fg Sample.settings)
                (Settings.query_bg Sample.settings))).
Proof. vm_compute. reflexivity. Qed.

End Frame.
